(** * node-tvmaze: the request dispatcher and the endpoint methods of index.js

    A shallow embedding of [index.js].  JavaScript values are a small
    inductive type, objects are property lists in insertion order, a promise
    is the list of requests handed to the transport together with the way it
    settled.  The two Node.js built-ins the dispatcher calls, [url.format]
    (legacy object form) and [querystring.stringify], are written out after
    Node's lib/url.js and lib/querystring.js.

    Scope of the value model: numbers are the integers (a [JNum n] is the
    safe integer [n], printed in decimal), strings are sequences of code
    units below 256 (one [ascii] each), there are no function values and no
    symbols, and the fields of an object are listed in the order
    [Object.keys] gives them. *)

From Stdlib Require Import ZArith NArith List String Ascii Bool Lia.
From Stdlib Require Import DecimalString.
Import ListNotations.
Open Scope string_scope.

Set Warnings "-register-all".

(** ** JavaScript values *)

Inductive value : Type :=
| JUndefined
| JNull
| JBool (b : bool)
| JNum (n : Z)
| JStr (s : string)
| JArr (items : list value)
| JObj (fields : list (string * value)).

Definition props := list (string * value).

(** ToBoolean: what [if (x)], [!x] and [x ? a : b] test. *)
Definition truthy (v : value) : bool :=
  match v with
  | JUndefined | JNull => false
  | JBool b => b
  | JNum n => negb (n =? 0)%Z
  | JStr s => negb (s =? "")
  | JArr _ | JObj _ => true
  end.

(** [String(n)] of an integer that JavaScript prints in full: all digits,
    a minus sign before a negative one (from 1e21 on it prints an exponent;
    [safe] below bounds the numbers a typed call takes). *)
Definition number_to_string (n : Z) : string :=
  NilZero.string_of_int (Z.to_int n).

(** ToString, as a template literal [`${v}`] and a computed property name
    [o[v]] apply it, for a value that converts.  The conversion of an object
    can throw; [to_string] below is the conversion with its failure, and the
    two agree wherever it returns. *)
Fixpoint ToString (v : value) : string :=
  match v with
  | JUndefined => "undefined"
  | JNull => "null"
  | JBool b => if b then "true" else "false"
  | JNum n => number_to_string n
  | JStr s => s
  | JArr items =>
      String.concat ","
        (map (fun x => match x with
                       | JUndefined | JNull => ""
                       | _ => ToString x
                       end) items)
  | JObj _ => "[object Object]"
  end.

(** ** Objects as property lists *)

Fixpoint assoc (k : string) (ps : props) : option value :=
  match ps with
  | [] => None
  | (k', v) :: rest => if k' =? k then Some v else assoc k rest
  end.

(** [o.k]: the value of an own property, [undefined] when there is none. *)
Definition prop (ps : props) (k : string) : value :=
  match assoc k ps with
  | Some v => v
  | None => JUndefined
  end.

Definition has_prop (ps : props) (k : string) : bool :=
  match assoc k ps with
  | Some _ => true
  | None => false
  end.

(** [o[k] = v]: an existing property keeps its place, a new one goes last. *)
Fixpoint set_prop (k : string) (v : value) (ps : props) : props :=
  match ps with
  | [] => [(k, v)]
  | (k', v') :: rest =>
      if k' =? k then (k', v) :: rest else (k', v') :: set_prop k v rest
  end.

(** [delete o[k]]. *)
Definition delete_prop (k : string) (ps : props) : props :=
  filter (fun kv => negb (fst kv =? k)) ps.

Fixpoint indexed_from {A : Type} (i : nat) (l : list A) : list (string * A) :=
  match l with
  | [] => []
  | x :: rest => (number_to_string (Z.of_nat i), x) :: indexed_from (S i) rest
  end.

(** The own enumerable string-keyed properties of a value, in the order of
    [Object.keys]: the fields of an object, the indices of an array or of a
    string, nothing for the other primitives.  The fields of an object are
    taken in the order they are listed, which is the order of [Object.keys]
    for names that are not array indices; [numeric_name] below marks the
    names for which JavaScript has an order of its own. *)
Definition own_props (v : value) : props :=
  match v with
  | JObj fields => fields
  | JArr items => indexed_from 0 items
  | JStr s =>
      indexed_from 0
        (map (fun c => JStr (String c "")) (list_ascii_of_string s))
  | _ => []
  end.

(** [Object.assign(target, ...sources)]: the sources' own enumerable
    properties are written onto the target one after the other; a source that
    is [undefined] or [null] is skipped. *)
Definition assign_one (target : props) (source : value) : props :=
  fold_left (fun t kv => set_prop (fst kv) (snd kv) t) (own_props source) target.

Definition Object_assign (target : props) (sources : list value) : props :=
  fold_left assign_one sources target.

(** ** querystring.stringify *)

(** The [noEscape] table of lib/querystring.js: ! ' ( ) * - . 0-9 A-Z _ a-z ~ *)
Definition noEscape (c : N) : bool :=
  ((c =? 33) || ((39 <=? c) && (c <=? 42)) || (c =? 45) || (c =? 46)
   || ((48 <=? c) && (c <=? 57)) || ((65 <=? c) && (c <=? 90))
   || (c =? 95) || ((97 <=? c) && (c <=? 122)) || (c =? 126))%N.

Definition hexDigit (d : N) : ascii :=
  match String.get (N.to_nat d) "0123456789ABCDEF" with
  | Some c => c
  | None => "0"%char
  end.

(** [hexTable[i]]: a percent sign and two upper-case hexadecimal digits. *)
Definition hexTable (i : N) : string :=
  String "%" (String (hexDigit (i / 16)) (String (hexDigit (i mod 16)) "")).

(** One code unit of [encodeStr]: kept when the table allows it, one escaped
    byte below 0x80, the two bytes of its UTF-8 form from there on. *)
Definition encodeUnit (a : ascii) : string :=
  let c := N_of_ascii a in
  if (c <? 128)%N then
    if noEscape c then String a "" else hexTable c
  else
    hexTable (N.lor 192 (N.shiftr c 6)) ++ hexTable (N.lor 128 (N.land c 63)).

(** [querystring.escape]. *)
Fixpoint qsEscape (s : string) : string :=
  match s with
  | "" => ""
  | String a rest => encodeUnit a ++ qsEscape rest
  end.

(** [encodeStringified]: strings are escaped, numbers and booleans printed,
    every other value becomes the empty string. *)
Definition encodeStringified (v : value) : string :=
  match v with
  | JStr s => qsEscape s
  | JNum n => number_to_string n
  | JBool b => if b then "true" else "false"
  | _ => ""
  end.

Definition nonempty (s : string) : bool := negb (s =? "").

(** The inner loop over an array value: [ks] and one element per round,
    a separator before every round but the first. *)
Fixpoint stringify_items (ks : string) (items : list value) (j : nat)
    (fields : string) : string :=
  match items with
  | [] => fields
  | x :: rest =>
      let fields := if (j =? 0)%nat then fields else fields ++ "&" in
      stringify_items ks rest (S j) (fields ++ ks ++ encodeStringified x)
  end.

(** The loop over the keys; [fields] is the string built so far. *)
Fixpoint stringify_from (ps : props) (fields : string) : string :=
  match ps with
  | [] => fields
  | (k, v) :: rest =>
      let ks := qsEscape k ++ "=" in
      match v with
      | JArr [] => stringify_from rest fields
      | JArr items =>
          let fields := if nonempty fields then fields ++ "&" else fields in
          stringify_from rest (stringify_items ks items 0 fields)
      | _ =>
          let fields := if nonempty fields then fields ++ "&" else fields in
          stringify_from rest (fields ++ ks ++ encodeStringified v)
      end
  end.

Definition stringify (obj : value) : string :=
  match obj with
  | JObj _ | JArr _ => stringify_from (own_props obj) ""
  | _ => ""
  end.

(** ** url.format on [{ pathname, query }] *)

(** [#] and [?] of the path are escaped. *)
Fixpoint escape_pathname (s : string) : string :=
  match s with
  | "" => ""
  | String a rest =>
      if (a =? "#")%char then "%23" ++ escape_pathname rest
      else if (a =? "?")%char then "%3F" ++ escape_pathname rest
      else String a (escape_pathname rest)
  end.

(** [search.replace(/#/g, '%23')]. *)
Fixpoint escape_hash (s : string) : string :=
  match s with
  | "" => ""
  | String a rest =>
      if (a =? "#")%char then "%23" ++ escape_hash rest
      else String a (escape_hash rest)
  end.

Definition url_format (pathname : string) (query : value) : string :=
  let query := stringify query in
  let search := if nonempty query then "?" ++ query else "" in
  let pathname := escape_pathname pathname in
  let search := escape_hash search in
  let search :=
    match search with
    | "" => search
    | String a _ => if (a =? "?")%char then search else "?" ++ search
    end in
  pathname ++ search.

(** ** Reading a URL back

    What the specification says of "the query string" is stated on the text of the
    URL itself: the part after the first question mark, cut at the
    ampersands, each entry's key ending at its first equals sign. *)

Fixpoint avoids (c : ascii) (s : string) : bool :=
  match s with
  | "" => true
  | String a rest => negb (a =? c)%char && avoids c rest
  end.

Fixpoint query_string (url : string) : string :=
  match url with
  | "" => ""
  | String a rest => if (a =? "?")%char then rest else query_string rest
  end.

Fixpoint split_on (sep : ascii) (s : string) : list string :=
  match s with
  | "" => [""]
  | String a rest =>
      if (a =? sep)%char then "" :: split_on sep rest
      else match split_on sep rest with
           | [] => [String a ""]
           | h :: t => String a h :: t
           end
  end.

Fixpoint key_of (entry : string) : string :=
  match entry with
  | "" => ""
  | String a rest => if (a =? "=")%char then "" else String a (key_of rest)
  end.

Definition query_keys (qs : string) : list string :=
  if nonempty qs then map key_of (split_on "&" qs) else [].

(** [s.includes(sub)] *)
Fixpoint contains (sub s : string) : bool :=
  String.prefix sub s
  || match s with
     | "" => false
     | String _ rest => contains sub rest
     end.

(** The entries [stringify] writes for one property, and for all of them. *)
Definition entries_of (kv : string * value) : list string :=
  let ks := qsEscape (fst kv) ++ "=" in
  match snd kv with
  | JArr items => map (fun x => ks ++ encodeStringified x) items
  | v => [ks ++ encodeStringified v]
  end.

Definition query_entries (ps : props) : list string := flat_map entries_of ps.

(** The characters that delimit the parts of a URL and of a query string. *)
Definition reserved (c : ascii) : bool :=
  ((c =? "&") || (c =? "=") || (c =? "#") || (c =? "?"))%char.

(** [fields] with the entries of [l] added, an ampersand before each entry
    that does not start the string. *)
Definition join_onto (fields : string) (l : list string) : string :=
  match l with
  | [] => fields
  | _ => if nonempty fields then fields ++ "&" ++ String.concat "&" l
         else String.concat "&" l
  end.

(** The binding of [k] that stands last in a property list. *)
Fixpoint lastb (k : string) (ps : props) : option value :=
  match ps with
  | [] => None
  | (k', v) :: rest =>
      match lastb k rest with
      | Some w => Some w
      | None => if k' =? k then Some v else None
      end
  end.

(** An object has one property per name. *)
Definition well_formed (v : value) : Prop := NoDup (map fst (own_props v)).

(** ** Further readings of a URL *)

Fixpoint all_chars (ok : ascii -> bool) (s : string) : bool :=
  match s with
  | "" => true
  | String a rest => ok a && all_chars ok rest
  end.

(** The characters a serialized query is made of: the ones [noEscape] lets
    through, the percent sign of an escape, and the two separators. *)
Definition query_char (a : ascii) : bool :=
  ((N_of_ascii a <? 128)%N && noEscape (N_of_ascii a))
  || (a =? "%")%char || (a =? "=")%char || (a =? "&")%char.

(** [Array.isArray] *)
Definition is_array (v : value) : bool :=
  match v with
  | JArr _ => true
  | _ => false
  end.

(** How many entries [stringify] writes for a value. *)
Definition entry_count (v : value) : nat :=
  match v with
  | JArr items => List.length items
  | _ => 1
  end.

(** The inverse of [qsEscape], for reading a serialized value back: the
    bytes behind the percent escapes, then the code units behind the bytes. *)
Definition hexValue (a : ascii) : N :=
  let c := N_of_ascii a in
  if (c <? 58)%N then c - 48 else c - 55.

Fixpoint pct_bytes (s : string) : list N :=
  match s with
  | "" => []
  | String a rest =>
      if (a =? "%")%char then
        match rest with
        | String h (String l rest') =>
            (16 * hexValue h + hexValue l)%N :: pct_bytes rest'
        | _ => []
        end
      else N_of_ascii a :: pct_bytes rest
  end.

Fixpoint utf8_units (bytes : list N) : string :=
  match bytes with
  | [] => ""
  | b :: rest =>
      if (b <? 128)%N then String (ascii_of_N b) (utf8_units rest)
      else match rest with
           | b' :: rest' =>
               String (ascii_of_N ((b mod 32) * 64 + b' mod 64)) (utf8_units rest')
           | [] => ""
           end
  end.

Definition unescape (s : string) : string := utf8_units (pct_bytes s).

(** The bytes [encodeUnit] escapes for one code unit. *)
Definition unit_bytes (a : ascii) : list N :=
  let c := N_of_ascii a in
  if (c <? 128)%N then [c]
  else [N.lor 192 (N.shiftr c 6); N.lor 128 (N.land c 63)].

(** ** Promises and the transport *)

(** What the dispatcher hands to axios: [{ method, url, headers }]. *)
Record request : Type := { method : string; url : string; headers : value }.

(** What axios resolves with; the dispatcher reads [data] only. *)
Record response : Type := { data : value; status : Z }.

Inductive settled (A E : Type) : Type :=
| Fulfilled (a : A)
| Rejected (e : E).
Arguments Fulfilled {A E} a.
Arguments Rejected {A E} e.

(** How a callback ends: it returns or it throws. *)
Inductive completion (A E : Type) : Type :=
| Return (a : A)
| Throw (e : E).
Arguments Return {A E} a.
Arguments Throw {A E} e.

(** A promise as seen from outside: the requests that went to the transport
    while it was built, in order, and the way it settles. *)
Record promise (A E : Type) : Type :=
  { sent : list request; outcome : settled A E }.
Arguments sent {A E} p.
Arguments outcome {A E} p.

(** [p.then(f)] *)
Definition promise_then {A B E : Type} (p : promise A E)
    (f : A -> completion B E) : promise B E :=
  {| sent := sent p;
     outcome := match outcome p with
                | Fulfilled a =>
                    match f a with
                    | Return b => Fulfilled b
                    | Throw e => Rejected e
                    end
                | Rejected e => Rejected e
                end |}.

(** [p.catch(g)] *)
Definition promise_catch {A E : Type} (p : promise A E)
    (g : E -> completion A E) : promise A E :=
  {| sent := sent p;
     outcome := match outcome p with
                | Fulfilled a => Fulfilled a
                | Rejected e =>
                    match g e with
                    | Return a => Fulfilled a
                    | Throw e' => Rejected e'
                    end
                end |}.

(** ** The conversion to a string, with its failure *)

(** What a conversion can throw (a lone surrogate, for which the encoder
    throws a URIError, is not a string of this model). *)
Inductive exception : Type := TypeError.

(** The results of a list of steps run from left to right: the first one
    that throws ends the run. *)
Fixpoint all_returned {A E : Type} (l : list (completion A E))
    : completion (list A) E :=
  match l with
  | [] => Return []
  | c :: rest =>
      match c with
      | Throw e => Throw e
      | Return a =>
          match all_returned rest with
          | Return l' => Return (a :: l')
          | Throw e => Throw e
          end
      end
  end.

(** ToString in full.  A primitive always converts.  An array converts
    through [join], element by element.  An object converts through its
    [toString]: the inherited one gives [[object Object]]; an own property of
    that name is, in this model of values, never a function, and with it the
    conversion finds nothing to call and throws a TypeError. *)
Fixpoint to_string (v : value) : completion string exception :=
  match v with
  | JUndefined => Return "undefined"
  | JNull => Return "null"
  | JBool b => Return (if b then "true" else "false")
  | JNum n => Return (number_to_string n)
  | JStr s => Return s
  | JArr items =>
      match all_returned
              (map (fun x => match x with
                             | JUndefined | JNull => Return ""
                             | _ => to_string x
                             end) items) with
      | Return l => Return (String.concat "," l)
      | Throw e => Throw e
      end
  | JObj fields =>
      if has_prop fields "toString" then Throw TypeError
      else Return "[object Object]"
  end.

(** [undefined], [null], booleans, numbers and strings. *)
Definition primitive (v : value) : bool :=
  match v with
  | JArr _ | JObj _ => false
  | _ => true
  end.

(** A property name written in digits only.  JavaScript lists the array
    indices among them before the other names, whatever the order they were
    added in. *)
Definition is_digit (a : ascii) : bool :=
  ((48 <=? N_of_ascii a) && (N_of_ascii a <=? 57))%N.

Definition numeric_name (k : string) : bool :=
  nonempty k && all_chars is_digit k.

(** A package version and two transports to run calls on: one that refuses
    every connection, one that answers every request with its own URL. *)
Definition sample_version : string := "2.1.0".

Definition offline (_ : request) : settled response string :=
  Rejected "ECONNREFUSED".

Definition echo (r : request) : settled response string :=
  Fulfilled {| data := JObj [("url", JStr (url r))]; status := 200 |}.

(** ** index.js *)

Definition BASE_URL : string := "api.tvmaze.com/".

Section Tvmaze.

(** The [version] field of package.json. *)
Variable VERSION : string.

(** The transport: the error objects axios rejects with, and what becomes of
    one request. *)
Variable error : Type.
Variable axios_result : request -> settled response error.

(** [axios(requestOpts)]: one request goes out. *)
Definition axios (requestOpts : request) : promise response error :=
  {| sent := [requestOpts]; outcome := axios_result requestOpts |}.

Definition DEFAULT_OPTIONS : value :=
  JObj [("https", JBool false);
        ("header",
         JObj [("User-Agent", JStr ("Mozilla/5.0 (Node.js) Tvmaze/" ++ VERSION))])].

(** The [header] field of [DEFAULT_OPTIONS]. *)
Definition default_header : value :=
  JObj [("User-Agent", JStr ("Mozilla/5.0 (Node.js) Tvmaze/" ++ VERSION))].

(** The locals of [sendRequest], each as a function of its arguments. *)
Definition opts (options : value) : props :=
  Object_assign [] [DEFAULT_OPTIONS; options].

Definition base_url (options : value) : string :=
  if truthy (prop (opts options) "https")
  then "https://" ++ BASE_URL
  else "http://" ++ BASE_URL.

Definition requestUrl (path : string) (options : value) : string :=
  base_url options ++ url_format path (prop (opts options) "query").

Definition requestOpts (path : string) (options : value) : request :=
  {| method := "GET";
     url := requestUrl path options;
     headers := prop (opts options) "header" |}.

Definition sendRequest (path : string) (options : value) : promise value error :=
  promise_catch
    (promise_then (axios (requestOpts path options))
       (fun response => Return (data response)))
    (fun error => Throw error).

(** [Object.assign({}, options, { query: query })] *)
Definition with_query (options query : value) : value :=
  JObj (Object_assign [] [options; JObj [("query", query)]]).

Definition search (string options : value) : promise value error :=
  let query := JObj [("q", string)] in
  sendRequest "search/shows" (with_query options query).

Definition singleSearch (string embed options : value) : promise value error :=
  let query := [("q", string); ("embed[]", embed)] in
  let query := if negb (truthy embed) then delete_prop "embed[]" query else query in
  sendRequest "singlesearch/shows" (with_query options (JObj query)).

Definition searchPeople (string options : value) : promise value error :=
  let query := JObj [("q", string)] in
  sendRequest "search/people" (with_query options query).

(** [query[type] = id] on an empty object makes a property named by the
    type, except for the name [__proto__]: that assignment goes to the
    prototype setter and leaves the object without own properties. *)
Definition lookup (type id options : value) : promise value error :=
  let key := ToString type in
  let query := if key =? "__proto__" then [] else set_prop key id [] in
  sendRequest "lookup/shows" (with_query options (JObj query)).

Definition lookupThetvdb (id options : value) : promise value error :=
  lookup (JStr "thetvdb") id options.

Definition lookupImdb (id options : value) : promise value error :=
  lookup (JStr "imdb") id options.

Definition lookupTvrage (id options : value) : promise value error :=
  lookup (JStr "tvrage") id options.

Definition schedule (countryCode date options : value) : promise value error :=
  let query := JObj [("countrycode", countryCode); ("date", date)] in
  sendRequest "schedule" (with_query options query).

Definition fullSchedule (options : value) : promise value error :=
  sendRequest "schedule/full" options.

Definition show (showid embed options : value) : promise value error :=
  let query := JObj [("embed[]", embed)] in
  sendRequest ("shows/" ++ ToString showid)
    (with_query options (if truthy embed then query else JNull)).

Definition episodes (showid specials options : value) : promise value error :=
  let query := JObj [("specials", JNum 1)] in
  sendRequest ("shows/" ++ ToString showid ++ "/episodes")
    (with_query options (if truthy specials then query else JNull)).

Definition episode (showid season episode options : value)
    : promise value error :=
  let query := JObj [("season", season); ("number", episode)] in
  sendRequest ("shows/" ++ ToString showid ++ "/episodebynumber")
    (with_query options query).

Definition episodesByDate (showid date options : value) : promise value error :=
  let query := JObj [("date", date)] in
  sendRequest ("shows/" ++ ToString showid ++ "/episodesbydate")
    (with_query options query).

Definition seasons (showid options : value) : promise value error :=
  sendRequest ("shows/" ++ ToString showid ++ "/seasons") options.

Definition seasonEpisodes (seasonid options : value) : promise value error :=
  sendRequest ("seasons/" ++ ToString seasonid ++ "/episodes") options.

Definition cast (showid options : value) : promise value error :=
  sendRequest ("shows/" ++ ToString showid ++ "/cast") options.

Definition crew (showid options : value) : promise value error :=
  sendRequest ("shows/" ++ ToString showid ++ "/crew") options.

Definition aliases (showid options : value) : promise value error :=
  sendRequest ("shows/" ++ ToString showid ++ "/akas") options.

Definition showsIndex (page options : value) : promise value error :=
  let query := JObj [("page", page)] in
  sendRequest "shows"
    (with_query options (if truthy page then query else JNull)).

Definition showUpdates (options : value) : promise value error :=
  sendRequest "updates/shows" options.

Definition person (personid embed options : value) : promise value error :=
  let query := JObj [("embed[]", embed)] in
  sendRequest ("people/" ++ ToString personid)
    (with_query options (if truthy embed then query else JNull)).

Definition personCastCredits (personid embed options : value)
    : promise value error :=
  let query := JObj [("embed[]", embed)] in
  sendRequest ("people/" ++ ToString personid ++ "/castcredits")
    (with_query options (if truthy embed then query else JNull)).

Definition personCrewCredits (personid embed options : value)
    : promise value error :=
  let query := JObj [("embed[]", embed)] in
  sendRequest ("people/" ++ ToString personid ++ "/crewcredits")
    (with_query options (if truthy embed then query else JNull)).


(** What a call put on the wire, read back from the requests it sent. *)
Definition urls_sent (p : promise value error) : list string :=
  map url (sent p).

Definition query_strings_sent (p : promise value error) : list string :=
  map query_string (urls_sent p).

Definition keys_sent (p : promise value error) : list string :=
  flat_map query_keys (query_strings_sent p).

(** The call sent one request, a GET. *)
Definition one_get (p : promise value error) : Prop :=
  exists r, sent p = [r] /\ method r = "GET".


(** The call sent one request, with the headers and under the base URL that
    [options] select. *)
Definition carries (options : value) (p : promise value error) : Prop :=
  exists r,
    sent p = [r]
    /\ headers r = prop (opts options) "header"
    /\ String.prefix (base_url options) (url r) = true.

(** The call sent one request and settled as the transport settled it: with
    the [data] of the response, or with the transport's error. *)
Definition settles_by_transport (p : promise value error) : Prop :=
  exists r,
    sent p = [r]
    /\ outcome p
       = match axios_result r with
         | Fulfilled response => Fulfilled (data response)
         | Rejected e => Rejected e
         end.

(** ** The call surface

    The operations with their arguments typed as the documentation types
    them: search strings, dates, country codes and external ids are strings,
    TVmaze ids, seasons, episode numbers and pages are natural numbers, an
    embed list is a list of strings or left out. *)

Inductive lookup_type : Type := Thetvdb | Imdb | Tvrage.

Definition lookup_type_name (t : lookup_type) : string :=
  match t with
  | Thetvdb => "thetvdb"
  | Imdb => "imdb"
  | Tvrage => "tvrage"
  end.

Inductive call : Type :=
| Search (q : string)
| SingleSearch (q : string) (embed : option (list string))
| SearchPeople (q : string)
| Lookup (type : lookup_type) (id : string)
| LookupThetvdb (id : string)
| LookupImdb (id : string)
| LookupTvrage (id : string)
| Schedule (countryCode date : string)
| FullSchedule
| Show (id : N) (embed : option (list string))
| Episodes (id : N) (specials : bool)
| Episode (id season number : N)
| EpisodesByDate (id : N) (date : string)
| Seasons (id : N)
| SeasonEpisodes (id : N)
| Cast (id : N)
| Crew (id : N)
| Aliases (id : N)
| ShowsIndex (page : option N)
| ShowUpdates
| Person (id : N) (embed : option (list string))
| PersonCastCredits (id : N) (embed : option (list string))
| PersonCrewCredits (id : N) (embed : option (list string)).

Definition js_num (n : N) : value := JNum (Z.of_N n).

Definition js_embed (embed : option (list string)) : value :=
  match embed with
  | Some l => JArr (map JStr l)
  | None => JUndefined
  end.

Definition js_page (page : option N) : value :=
  match page with
  | Some n => js_num n
  | None => JUndefined
  end.

(** The JavaScript call a typed call stands for. *)
Definition invoke (c : call) (options : value) : promise value error :=
  match c with
  | Search q => search (JStr q) options
  | SingleSearch q embed => singleSearch (JStr q) (js_embed embed) options
  | SearchPeople q => searchPeople (JStr q) options
  | Lookup t id => lookup (JStr (lookup_type_name t)) (JStr id) options
  | LookupThetvdb id => lookupThetvdb (JStr id) options
  | LookupImdb id => lookupImdb (JStr id) options
  | LookupTvrage id => lookupTvrage (JStr id) options
  | Schedule countryCode date => schedule (JStr countryCode) (JStr date) options
  | FullSchedule => fullSchedule options
  | Show id embed => show (js_num id) (js_embed embed) options
  | Episodes id specials => episodes (js_num id) (JBool specials) options
  | Episode id season number =>
      episode (js_num id) (js_num season) (js_num number) options
  | EpisodesByDate id date => episodesByDate (js_num id) (JStr date) options
  | Seasons id => seasons (js_num id) options
  | SeasonEpisodes id => seasonEpisodes (js_num id) options
  | Cast id => cast (js_num id) options
  | Crew id => crew (js_num id) options
  | Aliases id => aliases (js_num id) options
  | ShowsIndex page => showsIndex (js_page page) options
  | ShowUpdates => showUpdates options
  | Person id embed => person (js_num id) (js_embed embed) options
  | PersonCastCredits id embed =>
      personCastCredits (js_num id) (js_embed embed) options
  | PersonCrewCredits id embed =>
      personCrewCredits (js_num id) (js_embed embed) options
  end.




(** *** The documented templates

    Written after the table of operations, paths and query keys of the
    specification (its section 6) and its serialization rules (4.1, 4.2):
    a path, then the query keys in the order of the table, a question mark
    only when there is an entry, [page] only when supplied and truthy,
    [specials=1] only when asked for, one [embed[]] entry per element.
    The percent-encoding is the dispatcher's. *)

Definition dec (n : N) : string := number_to_string (Z.of_N n).

Definition with_entries (path : string) (entries : list string) : string :=
  match entries with
  | [] => path
  | _ => path ++ "?" ++ String.concat "&" entries
  end.

Definition embed_entries (embed : option (list string)) : list string :=
  match embed with
  | Some l => map (fun x => "embed%5B%5D=" ++ qsEscape x) l
  | None => []
  end.

Definition template (c : call) : string :=
  match c with
  | Search q => with_entries "search/shows" ["q=" ++ qsEscape q]
  | SingleSearch q embed =>
      with_entries "singlesearch/shows"
        (("q=" ++ qsEscape q) :: embed_entries embed)
  | SearchPeople q => with_entries "search/people" ["q=" ++ qsEscape q]
  | Lookup t id =>
      with_entries "lookup/shows" [lookup_type_name t ++ "=" ++ qsEscape id]
  | LookupThetvdb id => with_entries "lookup/shows" ["thetvdb=" ++ qsEscape id]
  | LookupImdb id => with_entries "lookup/shows" ["imdb=" ++ qsEscape id]
  | LookupTvrage id => with_entries "lookup/shows" ["tvrage=" ++ qsEscape id]
  | Schedule countryCode date =>
      with_entries "schedule"
        ["countrycode=" ++ qsEscape countryCode; "date=" ++ qsEscape date]
  | FullSchedule => "schedule/full"
  | Show id embed => with_entries ("shows/" ++ dec id) (embed_entries embed)
  | Episodes id specials =>
      with_entries ("shows/" ++ dec id ++ "/episodes")
        (if specials then ["specials=1"] else [])
  | Episode id season number =>
      with_entries ("shows/" ++ dec id ++ "/episodebynumber")
        ["season=" ++ dec season; "number=" ++ dec number]
  | EpisodesByDate id date =>
      with_entries ("shows/" ++ dec id ++ "/episodesbydate")
        ["date=" ++ qsEscape date]
  | Seasons id => "shows/" ++ dec id ++ "/seasons"
  | SeasonEpisodes id => "seasons/" ++ dec id ++ "/episodes"
  | Cast id => "shows/" ++ dec id ++ "/cast"
  | Crew id => "shows/" ++ dec id ++ "/crew"
  | Aliases id => "shows/" ++ dec id ++ "/akas"
  | ShowsIndex page =>
      with_entries "shows"
        (match page with
         | Some n => if (n =? 0)%N then [] else ["page=" ++ dec n]
         | None => []
         end)
  | ShowUpdates => "updates/shows"
  | Person id embed => with_entries ("people/" ++ dec id) (embed_entries embed)
  | PersonCastCredits id embed =>
      with_entries ("people/" ++ dec id ++ "/castcredits") (embed_entries embed)
  | PersonCrewCredits id embed =>
      with_entries ("people/" ++ dec id ++ "/crewcredits") (embed_entries embed)
  end.

(** ** A method call in full

    A method that writes an argument into its path, or uses it as a
    property name, converts it to a string first, and the conversion can
    throw before anything else happens.  When it returns, the call is the
    method as written above. *)

Inductive method_call : Type :=
| CallSearch (string options : value)
| CallSingleSearch (string embed options : value)
| CallSearchPeople (string options : value)
| CallLookup (type id options : value)
| CallLookupThetvdb (id options : value)
| CallLookupImdb (id options : value)
| CallLookupTvrage (id options : value)
| CallSchedule (countryCode date options : value)
| CallFullSchedule (options : value)
| CallShow (showid embed options : value)
| CallEpisodes (showid specials options : value)
| CallEpisode (showid season episode options : value)
| CallEpisodesByDate (showid date options : value)
| CallSeasons (showid options : value)
| CallSeasonEpisodes (seasonid options : value)
| CallCast (showid options : value)
| CallCrew (showid options : value)
| CallAliases (showid options : value)
| CallShowsIndex (page options : value)
| CallShowUpdates (options : value)
| CallPerson (personid embed options : value)
| CallPersonCastCredits (personid embed options : value)
| CallPersonCrewCredits (personid embed options : value).

(** What a call comes to: it throws, or it returns its promise. *)
Definition attempt : Type := completion (promise value error) exception.

Definition after_conversion (v : value) (p : promise value error) : attempt :=
  match to_string v with
  | Return _ => Return p
  | Throw e => Throw e
  end.

Definition perform (m : method_call) : attempt :=
  match m with
  | CallSearch string options => Return (search string options)
  | CallSingleSearch string embed options =>
      Return (singleSearch string embed options)
  | CallSearchPeople string options => Return (searchPeople string options)
  | CallLookup type id options => after_conversion type (lookup type id options)
  | CallLookupThetvdb id options => Return (lookupThetvdb id options)
  | CallLookupImdb id options => Return (lookupImdb id options)
  | CallLookupTvrage id options => Return (lookupTvrage id options)
  | CallSchedule countryCode date options =>
      Return (schedule countryCode date options)
  | CallFullSchedule options => Return (fullSchedule options)
  | CallShow showid embed options =>
      after_conversion showid (show showid embed options)
  | CallEpisodes showid specials options =>
      after_conversion showid (episodes showid specials options)
  | CallEpisode showid season number options =>
      after_conversion showid (episode showid season number options)
  | CallEpisodesByDate showid date options =>
      after_conversion showid (episodesByDate showid date options)
  | CallSeasons showid options => after_conversion showid (seasons showid options)
  | CallSeasonEpisodes seasonid options =>
      after_conversion seasonid (seasonEpisodes seasonid options)
  | CallCast showid options => after_conversion showid (cast showid options)
  | CallCrew showid options => after_conversion showid (crew showid options)
  | CallAliases showid options => after_conversion showid (aliases showid options)
  | CallShowsIndex page options => Return (showsIndex page options)
  | CallShowUpdates options => Return (showUpdates options)
  | CallPerson personid embed options =>
      after_conversion personid (person personid embed options)
  | CallPersonCastCredits personid embed options =>
      after_conversion personid (personCastCredits personid embed options)
  | CallPersonCrewCredits personid embed options =>
      after_conversion personid (personCrewCredits personid embed options)
  end.

(** The arguments a call converts to a string before it sends anything. *)
Definition converted (m : method_call) : list value :=
  match m with
  | CallLookup type _ _ => [type]
  | CallShow id _ _ | CallEpisodes id _ _ | CallEpisode id _ _ _
  | CallEpisodesByDate id _ _ | CallSeasons id _ | CallSeasonEpisodes id _
  | CallCast id _ | CallCrew id _ | CallAliases id _ | CallPerson id _ _
  | CallPersonCastCredits id _ _ | CallPersonCrewCredits id _ _ => [id]
  | _ => []
  end.

(** The options a call was given. *)
Definition options_of (m : method_call) : value :=
  match m with
  | CallSearch _ o | CallSingleSearch _ _ o | CallSearchPeople _ o
  | CallLookup _ _ o | CallLookupThetvdb _ o | CallLookupImdb _ o
  | CallLookupTvrage _ o | CallSchedule _ _ o | CallFullSchedule o
  | CallShow _ _ o | CallEpisodes _ _ o | CallEpisode _ _ _ o
  | CallEpisodesByDate _ _ o | CallSeasons _ o | CallSeasonEpisodes _ o
  | CallCast _ o | CallCrew _ o | CallAliases _ o | CallShowsIndex _ o
  | CallShowUpdates o | CallPerson _ _ o | CallPersonCastCredits _ _ o
  | CallPersonCrewCredits _ _ o => o
  end.

(** ** Checks of the embedding on the documentation's own examples *)

Example stringify_doc_example :
  stringify (JObj [("foo", JStr "bar"); ("baz", JArr [JStr "qux"; JStr "quux"]);
                   ("corge", JStr "")])
  = "foo=bar&baz=qux&baz=quux&corge=".
Proof. reflexivity. Qed.

Example number_to_string_examples :
  number_to_string 0 = "0" /\ number_to_string 396 = "396"
  /\ number_to_string (-7) = "-7".
Proof. repeat split; reflexivity. Qed.

Example qsEscape_examples :
  qsEscape "star vs the forces of evil" = "star%20vs%20the%20forces%20of%20evil"
  /\ qsEscape "embed[]" = "embed%5B%5D"
  /\ qsEscape "a&b=c+d" = "a%26b%3Dc%2Bd"
  /\ qsEscape (String (ascii_of_nat 233) "") = "%C3%A9".
Proof. repeat split; reflexivity. Qed.

(** ** Strings *)

Lemma append_nil_r (s : string) : s ++ "" = s.
Proof. induction s; simpl; congruence. Qed.

Lemma append_assoc (a b c : string) : (a ++ b) ++ c = a ++ b ++ c.
Proof. induction a; simpl; congruence. Qed.

Lemma avoids_app (c : ascii) (a b : string) :
  avoids c (a ++ b) = avoids c a && avoids c b.
Proof.
  induction a as [|x a IH]; simpl; [reflexivity|].
  rewrite IH. apply andb_assoc.
Qed.

Lemma avoids_concat (c : ascii) (sep : string) (l : list string) :
  avoids c sep = true ->
  Forall (fun e => avoids c e = true) l ->
  avoids c (String.concat sep l) = true.
Proof.
  intros Hsep Hl. induction Hl as [|e l He Hl IH]; [reflexivity|].
  destruct l as [|e' l']; [exact He|].
  cbn [String.concat]. rewrite !avoids_app, He, Hsep. exact IH.
Qed.

Lemma query_string_avoids (a b : string) :
  avoids "?" a = true -> query_string (a ++ String "?" b) = b.
Proof.
  induction a as [|x a IH]; simpl; [reflexivity|].
  destruct (Ascii.eqb x "?"); simpl; [discriminate|exact IH].
Qed.

Lemma query_string_none (a : string) :
  avoids "?" a = true -> query_string a = "".
Proof.
  induction a as [|x a IH]; simpl; [reflexivity|].
  destruct (Ascii.eqb x "?"); simpl; [discriminate|exact IH].
Qed.

Lemma split_on_avoids (sep : ascii) (x : string) :
  avoids sep x = true -> split_on sep x = [x].
Proof.
  induction x as [|a x IH]; simpl; [reflexivity|].
  destruct (Ascii.eqb a sep); simpl; [discriminate|].
  intros H. rewrite (IH H). reflexivity.
Qed.

Lemma split_on_app (sep : ascii) (x rest : string) :
  avoids sep x = true ->
  split_on sep (x ++ String sep rest) = x :: split_on sep rest.
Proof.
  induction x as [|a x IH]; simpl.
  - intros _. rewrite Ascii.eqb_refl. reflexivity.
  - destruct (Ascii.eqb a sep); simpl; [discriminate|].
    intros H. rewrite (IH H). reflexivity.
Qed.

Lemma split_on_concat (l : list string) :
  l <> [] ->
  Forall (fun e => avoids "&" e = true) l ->
  split_on "&" (String.concat "&" l) = l.
Proof.
  intros Hne Hl. induction Hl as [|e l He Hl IH]; [congruence|].
  destruct l as [|e' l'].
  - simpl. apply split_on_avoids, He.
  - cbn [String.concat]. change ("&" ++ ?s) with (String "&" s).
    rewrite (split_on_app "&" e _ He). f_equal. apply IH. discriminate.
Qed.

Lemma key_of_entry (k v : string) :
  avoids "=" k = true -> key_of (k ++ String "=" v) = k.
Proof.
  induction k as [|a k IH]; simpl; [reflexivity|].
  destruct (Ascii.eqb a "="); simpl; [discriminate|].
  intros H. rewrite (IH H). reflexivity.
Qed.

Lemma escape_hash_avoids (s : string) :
  avoids "#" s = true -> escape_hash s = s.
Proof.
  induction s as [|a s IH]; simpl; [reflexivity|].
  destruct (Ascii.eqb a "#"); simpl; [discriminate|].
  intros H. rewrite (IH H). reflexivity.
Qed.


Lemma escape_pathname_no_question (s : string) :
  avoids "?" (escape_pathname s) = true.
Proof.
  induction s as [|a s IH]; simpl; [reflexivity|].
  destruct (Ascii.eqb a "#") eqn:E1; [exact IH|].
  destruct (Ascii.eqb a "?") eqn:E2; [exact IH|].
  simpl. rewrite E2. exact IH.
Qed.

(** ** The characters with a meaning in a URL never leave the encoder *)

Lemma reserved_cases (c : ascii) :
  reserved c = true ->
  c = "&"%char \/ c = "="%char \/ c = "#"%char \/ c = "?"%char.
Proof.
  unfold reserved. intros H.
  repeat (apply orb_true_iff in H; destruct H as [H|H]);
    apply Ascii.eqb_eq in H; auto.
Qed.

Lemma encodeUnit_avoids (c a : ascii) :
  reserved c = true -> avoids c (encodeUnit a) = true.
Proof.
  intros H. apply reserved_cases in H.
  destruct H as [-> | [-> | [-> | ->]]];
    destruct a as [[] [] [] [] [] [] [] []]; vm_compute; reflexivity.
Qed.

Lemma qsEscape_avoids (c : ascii) (s : string) :
  reserved c = true -> avoids c (qsEscape s) = true.
Proof.
  intros H. induction s as [|a s IH]; simpl; [reflexivity|].
  rewrite avoids_app, IH, (encodeUnit_avoids c a H). reflexivity.
Qed.

Lemma string_of_uint_avoids (c : ascii) (d : Decimal.uint) :
  reserved c = true -> avoids c (NilEmpty.string_of_uint d) = true.
Proof.
  intros H. apply reserved_cases in H.
  destruct H as [-> | [-> | [-> | ->]]];
    induction d; simpl; auto.
Qed.

Lemma number_to_string_avoids (c : ascii) (n : Z) :
  reserved c = true -> avoids c (number_to_string n) = true.
Proof.
  intros H. unfold number_to_string, NilZero.string_of_int.
  assert (Hu : forall d, avoids c (NilZero.string_of_uint d) = true).
  { intros d. unfold NilZero.string_of_uint.
    destruct d; try apply (string_of_uint_avoids c _ H).
    apply reserved_cases in H.
    destruct H as [-> | [-> | [-> | ->]]]; reflexivity. }
  destruct (Z.to_int n) as [d|d]; [apply Hu|].
  simpl. rewrite Hu, andb_true_r.
  apply reserved_cases in H.
  destruct H as [-> | [-> | [-> | ->]]]; reflexivity.
Qed.

Lemma encodeStringified_avoids (c : ascii) (v : value) :
  reserved c = true -> avoids c (encodeStringified v) = true.
Proof.
  intros H. destruct v; simpl; try reflexivity.
  - apply reserved_cases in H.
    destruct H as [-> | [-> | [-> | ->]]]; destruct b; reflexivity.
  - apply number_to_string_avoids, H.
  - apply qsEscape_avoids, H.
Qed.

(** Digits and the minus sign are not escaped. *)
Lemma qsEscape_string_of_uint (d : Decimal.uint) :
  qsEscape (NilEmpty.string_of_uint d) = NilEmpty.string_of_uint d.
Proof. induction d; simpl; try rewrite IHd; reflexivity. Qed.

(** ** The loop of [stringify] writes the entries joined by ampersands *)

Lemma nonempty_app_r (a b : string) : nonempty b = true -> nonempty (a ++ b) = true.
Proof. destruct a; simpl; [auto|reflexivity]. Qed.

Lemma nonempty_app_l (a b : string) : nonempty a = true -> nonempty (a ++ b) = true.
Proof. destruct a; simpl; [discriminate|reflexivity]. Qed.

Lemma concat_cons2 (e e' : string) (l : list string) :
  String.concat "&" (e :: e' :: l) = e ++ "&" ++ String.concat "&" (e' :: l).
Proof. reflexivity. Qed.

Lemma concat_app (l1 l2 : list string) :
  l1 <> [] -> l2 <> [] ->
  String.concat "&" (l1 ++ l2)
  = String.concat "&" l1 ++ "&" ++ String.concat "&" l2.
Proof.
  intros H1 H2. induction l1 as [|e l1 IH]; [congruence|].
  destruct l1 as [|e' l1'].
  - destruct l2; [congruence|reflexivity].
  - specialize (IH ltac:(discriminate)).
    change ((e :: e' :: l1') ++ l2)%list with (e :: e' :: (l1' ++ l2))%list.
    change ((e' :: l1') ++ l2)%list with (e' :: (l1' ++ l2))%list in IH.
    rewrite (concat_cons2 e e' (l1' ++ l2)%list), IH.
    rewrite (concat_cons2 e e' l1'), !append_assoc. reflexivity.
Qed.

Lemma nonempty_concat (e : string) (l : list string) :
  nonempty e = true -> nonempty (String.concat "&" (e :: l)) = true.
Proof.
  intros H. destruct l; [exact H|].
  rewrite concat_cons2. apply nonempty_app_l, H.
Qed.

Lemma join_onto_nonempty (fields e : string) (l : list string) :
  nonempty e = true -> nonempty (join_onto fields (e :: l)) = true.
Proof.
  intros H. unfold join_onto. destruct (nonempty fields) eqn:E.
  - apply nonempty_app_l, E.
  - apply nonempty_concat, H.
Qed.

Lemma join_onto_app (fields : string) (l1 l2 : list string) :
  Forall (fun e => nonempty e = true) l1 ->
  join_onto (join_onto fields l1) l2 = join_onto fields (l1 ++ l2).
Proof.
  intros H. destruct l1 as [|e l1]; [reflexivity|].
  destruct l2 as [|e2 l2]; [rewrite app_nil_r; reflexivity|].
  inversion H as [|? ? He _]; subst.
  unfold join_onto at 1. rewrite (join_onto_nonempty fields e l1 He).
  pose proof (concat_app (e :: l1) (e2 :: l2)) as Happ.
  change ((e :: l1) ++ e2 :: l2)%list with (e :: (l1 ++ e2 :: l2))%list in *.
  unfold join_onto.
  rewrite Happ by discriminate.
  destruct (nonempty fields); rewrite ?append_assoc; reflexivity.
Qed.

Lemma join_onto_one (fields e : string) :
  (if nonempty fields then fields ++ "&" else fields) ++ e
  = join_onto fields [e].
Proof.
  unfold join_onto. destruct fields; simpl; [reflexivity|].
  rewrite append_assoc. reflexivity.
Qed.

Lemma entry_nonempty (k e : string) : nonempty ((qsEscape k ++ "=") ++ e) = true.
Proof. apply nonempty_app_l, nonempty_app_r. reflexivity. Qed.

Lemma stringify_items_next (ks : string) (items : list value) (j : nat)
    (fields : string) :
  nonempty ks = true -> nonempty fields = true ->
  stringify_items ks items (S j) fields
  = join_onto fields (map (fun x => ks ++ encodeStringified x) items).
Proof.
  intros Hks. revert j fields.
  induction items as [|x items IH]; intros j fields Hf; [reflexivity|].
  cbn [stringify_items Nat.eqb map].
  rewrite IH by (apply nonempty_app_l, nonempty_app_l, Hf).
  replace ((fields ++ "&") ++ ks ++ encodeStringified x)
    with (join_onto fields [ks ++ encodeStringified x])
    by (unfold join_onto; rewrite Hf, append_assoc; reflexivity).
  rewrite join_onto_app; [reflexivity|].
  constructor; [apply nonempty_app_l, Hks|constructor].
Qed.

Lemma entries_of_nonempty (kv : string * value) :
  Forall (fun e => nonempty e = true) (entries_of kv).
Proof.
  destruct kv as [k v]. unfold entries_of. cbn [fst snd].
  destruct v; try (constructor; [apply entry_nonempty|constructor]).
  apply Forall_forall. intros e He. apply in_map_iff in He.
  destruct He as [x [<- _]]. apply entry_nonempty.
Qed.

Lemma stringify_from_step (k : string) (v : value) (rest : props)
    (fields : string) :
  stringify_from ((k, v) :: rest) fields
  = stringify_from rest (join_onto fields (entries_of (k, v))).
Proof.
  unfold entries_of. cbn [fst snd stringify_from].
  destruct v as [| | b | n | s | items | fs];
    try (rewrite join_onto_one; reflexivity).
  destruct items as [|x items]; [reflexivity|].
  cbn [stringify_items Nat.eqb map]. f_equal.
  rewrite stringify_items_next.
  - rewrite join_onto_one. rewrite join_onto_app; [reflexivity|].
    constructor; [apply entry_nonempty|constructor].
  - apply nonempty_app_r. reflexivity.
  - apply nonempty_app_r, entry_nonempty.
Qed.

Lemma stringify_from_entries (ps : props) (fields : string) :
  stringify_from ps fields = join_onto fields (query_entries ps).
Proof.
  revert fields. induction ps as [|[k v] ps IH]; intros fields; [reflexivity|].
  rewrite stringify_from_step, IH.
  apply join_onto_app, entries_of_nonempty.
Qed.

(** [stringify] of an object, as a join. *)
Lemma stringify_obj (ps : props) :
  stringify (JObj ps) = String.concat "&" (query_entries ps).
Proof.
  unfold stringify. cbn [own_props]. rewrite stringify_from_entries.
  unfold join_onto. destruct (query_entries ps); reflexivity.
Qed.

Lemma stringify_join (q : value) :
  stringify q
  = match q with
    | JObj _ | JArr _ => String.concat "&" (query_entries (own_props q))
    | _ => ""
    end.
Proof.
  destruct q; try reflexivity.
  - unfold stringify. rewrite stringify_from_entries.
    unfold join_onto. destruct (query_entries _); reflexivity.
  - apply stringify_obj.
Qed.

(** ** Property lists *)

Lemma assoc_set_prop_eq (k : string) (v : value) (ps : props) :
  assoc k (set_prop k v ps) = Some v.
Proof.
  induction ps as [|[k' v'] ps IH]; simpl.
  - rewrite String.eqb_refl. reflexivity.
  - destruct (k' =? k) eqn:E; simpl; rewrite E; [reflexivity|exact IH].
Qed.

Lemma assoc_set_prop_neq (k k' : string) (v : value) (ps : props) :
  k <> k' -> assoc k' (set_prop k v ps) = assoc k' ps.
Proof.
  intros Hne. induction ps as [|[k0 v0] ps IH]; simpl.
  - apply String.eqb_neq in Hne. rewrite Hne. reflexivity.
  - destruct (k0 =? k) eqn:E; simpl.
    + apply String.eqb_eq in E. subst k0.
      apply String.eqb_neq in Hne. rewrite Hne. reflexivity.
    + rewrite IH. reflexivity.
Qed.

Lemma assoc_set_prop (k k' : string) (v : value) (ps : props) :
  assoc k' (set_prop k v ps) = if k =? k' then Some v else assoc k' ps.
Proof.
  destruct (k =? k') eqn:E.
  - apply String.eqb_eq in E. subst. apply assoc_set_prop_eq.
  - apply String.eqb_neq in E. apply assoc_set_prop_neq, E.
Qed.

Lemma assoc_None_keys (k : string) (ps : props) :
  assoc k ps = None <-> ~ In k (map fst ps).
Proof.
  induction ps as [|[k' v] ps IH]; simpl; [tauto|].
  destruct (k' =? k) eqn:E.
  - apply String.eqb_eq in E. split; [discriminate|tauto].
  - apply String.eqb_neq in E. rewrite IH. tauto.
Qed.


(** In a well-formed list the last binding of a name is its only one. *)
Lemma lastb_NoDup (k : string) (ps : props) :
  NoDup (map fst ps) -> lastb k ps = assoc k ps.
Proof.
  induction ps as [|[k' v] ps IH]; simpl; [reflexivity|].
  intros H. inversion H as [|? ? Hnotin Hnd]; subst.
  rewrite (IH Hnd). destruct (k' =? k) eqn:E.
  - apply String.eqb_eq in E. subst k'.
    apply assoc_None_keys in Hnotin. rewrite Hnotin. reflexivity.
  - destruct (assoc k ps); reflexivity.
Qed.

Lemma set_prop_keys (k x : string) (v : value) (ps : props) :
  In x (map fst (set_prop k v ps)) -> x = k \/ In x (map fst ps).
Proof.
  induction ps as [|[k' v'] ps IH]; simpl.
  - intros [H|[]]. auto.
  - destruct (k' =? k); simpl; intuition auto.
Qed.

Lemma set_prop_NoDup (k : string) (v : value) (ps : props) :
  NoDup (map fst ps) -> NoDup (map fst (set_prop k v ps)).
Proof.
  induction ps as [|[k' v'] ps IH]; simpl; intros H.
  - constructor; [intros []|constructor].
  - inversion H as [|? ? Hnotin Hnd]; subst.
    destruct (k' =? k) eqn:E; simpl; [constructor; assumption|].
    constructor; [|apply IH, Hnd].
    intros Hin. apply set_prop_keys in Hin. destruct Hin as [->|Hin].
    + rewrite String.eqb_refl in E. discriminate.
    + contradiction.
Qed.

Lemma assign_one_NoDup (t : props) (source : value) :
  NoDup (map fst t) -> NoDup (map fst (assign_one t source)).
Proof.
  unfold assign_one. generalize (own_props source). intros src. revert t.
  induction src as [|[k v] src IH]; intros t H; simpl; [exact H|].
  apply IH, set_prop_NoDup, H.
Qed.

(** [Object.assign] onto a target: the source's binding wins, the target's
    is kept where the source has none. *)
Lemma assoc_assign_one (k : string) (t : props) (source : value) :
  assoc k (assign_one t source)
  = match lastb k (own_props source) with
    | Some v => Some v
    | None => assoc k t
    end.
Proof.
  unfold assign_one. generalize (own_props source). intros src. revert t.
  induction src as [|[k' v] src IH]; intros t; simpl; [reflexivity|].
  rewrite IH. destruct (lastb k src); [reflexivity|].
  rewrite assoc_set_prop. destruct (k' =? k); reflexivity.
Qed.


(** ** The locals of the dispatcher *)

Lemma opts_unfold (options : value) :
  opts options = assign_one (own_props DEFAULT_OPTIONS) options.
Proof. reflexivity. Qed.

Lemma assoc_opts (k : string) (options : value) :
  assoc k (opts options)
  = match lastb k (own_props options) with
    | Some v => Some v
    | None => assoc k (own_props DEFAULT_OPTIONS)
    end.
Proof. rewrite opts_unfold. apply assoc_assign_one. Qed.

Lemma own_props_with_query (options query : value) :
  own_props (with_query options query)
  = set_prop "query" query (assign_one [] options).
Proof. reflexivity. Qed.

Lemma with_query_well_formed (options query : value) :
  well_formed (with_query options query).
Proof.
  unfold well_formed. rewrite own_props_with_query.
  apply set_prop_NoDup, assign_one_NoDup. constructor.
Qed.

(** After [Object.assign({}, options, { query })] the effective query is the
    method's, every other effective field is what [options] alone gives. *)
Lemma assoc_opts_with_query (k : string) (options query : value) :
  assoc k (opts (with_query options query))
  = if "query" =? k then Some query else assoc k (opts options).
Proof.
  rewrite !assoc_opts.
  rewrite (lastb_NoDup k _ (with_query_well_formed options query)).
  rewrite own_props_with_query, assoc_set_prop.
  destruct ("query" =? k); [reflexivity|].
  rewrite assoc_assign_one.
  destruct (lastb k (own_props options)); reflexivity.
Qed.

Lemma prop_opts_with_query (k : string) (options query : value) :
  prop (opts (with_query options query)) k
  = if "query" =? k then query else prop (opts options) k.
Proof.
  unfold prop. rewrite assoc_opts_with_query.
  destruct ("query" =? k); reflexivity.
Qed.

Lemma base_url_with_query (options query : value) :
  base_url (with_query options query) = base_url options.
Proof. unfold base_url. rewrite prop_opts_with_query. reflexivity. Qed.

Lemma requestOpts_with_query (path : string) (options query : value) :
  requestOpts path (with_query options query)
  = {| method := "GET";
       url := base_url options ++ url_format path query;
       headers := prop (opts options) "header" |}.
Proof.
  unfold requestOpts, requestUrl.
  rewrite base_url_with_query, !prop_opts_with_query. reflexivity.
Qed.

Lemma sent_sendRequest (path : string) (options : value) :
  sent (sendRequest path options) = [requestOpts path options].
Proof. reflexivity. Qed.

(** ** The shape of a formatted URL *)

Lemma stringify_avoids (c : ascii) (q : value) :
  (c = "#" \/ c = "?")%char -> avoids c (stringify q) = true.
Proof.
  intros Hc.
  assert (Hr : reserved c = true) by (destruct Hc; subst; reflexivity).
  assert (Hsep : avoids c "&" = true) by (destruct Hc; subst; reflexivity).
  assert (Heq : avoids c "=" = true) by (destruct Hc; subst; reflexivity).
  rewrite stringify_join.
  assert (He : forall ps, Forall (fun e => avoids c e = true) (query_entries ps)).
  { intros ps. apply Forall_forall. intros e Hin.
    apply in_flat_map in Hin. destruct Hin as [[k v] [_ Hin]].
    unfold entries_of in Hin. cbn [fst snd] in Hin.
    assert (Hone : forall x,
               avoids c ((qsEscape k ++ "=") ++ encodeStringified x) = true).
    { intros x. rewrite !avoids_app, qsEscape_avoids, Heq,
        encodeStringified_avoids by exact Hr. reflexivity. }
    destruct v; try (destruct Hin as [<-|[]]; apply Hone).
    apply in_map_iff in Hin. destruct Hin as [x [<- _]]. apply Hone. }
  destruct q; try reflexivity; apply avoids_concat; auto.
Qed.

Lemma url_format_search (pathname : string) (query : value) :
  url_format pathname query
  = escape_pathname pathname
    ++ (if nonempty (stringify query) then "?" ++ stringify query else "").
Proof.
  unfold url_format. destruct (nonempty (stringify query)); [|reflexivity].
  change ("?" ++ stringify query) with (String "?" (stringify query)).
  cbn [escape_hash]. change (Ascii.eqb "?" "#") with false. cbv iota.
  rewrite escape_hash_avoids by (apply stringify_avoids; auto).
  change (Ascii.eqb "?" "?") with true. reflexivity.
Qed.

Lemma url_format_entries (pathname : string) (ps : props) :
  url_format pathname (JObj ps)
  = with_entries (escape_pathname pathname) (query_entries ps).
Proof.
  rewrite url_format_search, stringify_obj. unfold with_entries.
  destruct (query_entries ps) as [|e l] eqn:E; [rewrite append_nil_r; reflexivity|].
  assert (He : nonempty e = true).
  { assert (Hall : Forall (fun e => nonempty e = true) (query_entries ps)).
    { apply Forall_forall. intros x Hin. apply in_flat_map in Hin.
      destruct Hin as [kv [_ Hin]].
      pose proof (entries_of_nonempty kv) as Hkv.
      rewrite Forall_forall in Hkv. apply Hkv, Hin. }
    rewrite E in Hall. inversion Hall; assumption. }
  rewrite (nonempty_concat e l He). reflexivity.
Qed.


Lemma base_url_cases (options : value) :
  base_url options = "https://api.tvmaze.com/"
  \/ base_url options = "http://api.tvmaze.com/".
Proof.
  unfold base_url. destruct (truthy _); [left|right]; reflexivity.
Qed.

(** The query string of the URL is what [stringify] made of the effective
    query. *)
Lemma query_string_requestUrl (path : string) (options : value) :
  query_string (requestUrl path options)
  = stringify (prop (opts options) "query").
Proof.
  unfold requestUrl. rewrite url_format_search.
  set (q := stringify _).
  assert (Hb : avoids "?" (base_url options ++ escape_pathname path) = true).
  { rewrite avoids_app, escape_pathname_no_question.
    destruct (base_url_cases options) as [-> | ->]; reflexivity. }
  rewrite <- append_assoc.
  destruct (nonempty q) eqn:E.
  - apply query_string_avoids, Hb.
  - rewrite append_nil_r. rewrite (query_string_none _ Hb).
    destruct q; [reflexivity|discriminate].
Qed.

Lemma query_keys_concat (l : list string) :
  Forall (fun e => avoids "&" e = true) l ->
  Forall (fun e => nonempty e = true) l ->
  query_keys (String.concat "&" l) = map key_of l.
Proof.
  intros Hamp Hne. destruct l as [|e l]; [reflexivity|].
  unfold query_keys. inversion Hne; subst.
  rewrite nonempty_concat by assumption.
  rewrite split_on_concat; [reflexivity|discriminate|exact Hamp].
Qed.

Lemma query_entries_avoid_amp (ps : props) :
  Forall (fun e => avoids "&" e = true) (query_entries ps).
Proof.
  apply Forall_forall. intros e Hin.
  apply in_flat_map in Hin. destruct Hin as [[k v] [_ Hin]].
  unfold entries_of in Hin. cbn [fst snd] in Hin.
  assert (Hone : forall x,
             avoids "&" ((qsEscape k ++ "=") ++ encodeStringified x) = true).
  { intros x. rewrite !avoids_app, qsEscape_avoids,
      encodeStringified_avoids by reflexivity. reflexivity. }
  destruct v; try (destruct Hin as [<-|[]]; apply Hone).
  apply in_map_iff in Hin. destruct Hin as [x [<- _]]. apply Hone.
Qed.

Lemma query_entries_nonempty (ps : props) :
  Forall (fun e => nonempty e = true) (query_entries ps).
Proof.
  apply Forall_forall. intros x Hin. apply in_flat_map in Hin.
  destruct Hin as [kv [_ Hin]].
  pose proof (entries_of_nonempty kv) as Hkv.
  rewrite Forall_forall in Hkv. apply Hkv, Hin.
Qed.

Lemma key_of_written (k e : string) : key_of ((qsEscape k ++ "=") ++ e) = qsEscape k.
Proof.
  rewrite append_assoc. apply key_of_entry, qsEscape_avoids. reflexivity.
Qed.

(** The keys read back from a serialized object are the escaped names of
    its properties, one per entry written. *)
Lemma query_keys_stringify (ps : props) :
  query_keys (stringify (JObj ps)) = map key_of (query_entries ps).
Proof.
  rewrite stringify_obj.
  apply query_keys_concat; [apply query_entries_avoid_amp|apply query_entries_nonempty].
Qed.

Lemma key_of_query_entries (k : string) (ps : props) :
  In k (map key_of (query_entries ps)) ->
  exists k0, In k0 (map fst ps) /\ k = qsEscape k0.
Proof.
  intros Hin. apply in_map_iff in Hin. destruct Hin as [e [<- Hin]].
  apply in_flat_map in Hin. destruct Hin as [[k0 v] [Hkv Hin]].
  exists k0. split; [apply in_map_iff; exists (k0, v); auto|].
  unfold entries_of in Hin. cbn [fst snd] in Hin.
  destruct v; try (destruct Hin as [<-|[]]; apply key_of_written).
  apply in_map_iff in Hin. destruct Hin as [x [<- _]]. apply key_of_written.
Qed.



Lemma sendRequest_requestOpts (path path' : string) (options options' : value) :
  requestOpts path options = requestOpts path' options' ->
  sendRequest path options = sendRequest path' options'.
Proof. unfold sendRequest. intros ->. reflexivity. Qed.



(** ** What a call sends *)

Lemma query_strings_sent_sendRequest (path : string) (options : value) :
  query_strings_sent (sendRequest path options)
  = [stringify (prop (opts options) "query")].
Proof.
  unfold query_strings_sent, urls_sent. rewrite sent_sendRequest.
  cbn [map url requestOpts]. rewrite query_string_requestUrl. reflexivity.
Qed.

Lemma query_strings_sent_with_query (path : string) (options query : value) :
  query_strings_sent (sendRequest path (with_query options query))
  = [stringify query].
Proof.
  rewrite query_strings_sent_sendRequest, prop_opts_with_query. reflexivity.
Qed.

Lemma keys_sent_sendRequest (path : string) (options : value) :
  keys_sent (sendRequest path options)
  = query_keys (stringify (prop (opts options) "query")).
Proof.
  unfold keys_sent. rewrite query_strings_sent_sendRequest.
  cbn [flat_map]. apply app_nil_r.
Qed.

Lemma keys_sent_with_query (path : string) (options query : value) :
  keys_sent (sendRequest path (with_query options query))
  = query_keys (stringify query).
Proof. rewrite keys_sent_sendRequest, prop_opts_with_query. reflexivity. Qed.

Lemma query_keys_stringify_names (k : string) (q : value) :
  In k (query_keys (stringify q)) ->
  exists k0, In k0 (map fst (own_props q)) /\ k = qsEscape k0.
Proof.
  destruct q as [| | b | n | s | items | fs]; try (intros []).
  - change (stringify (JArr items))
      with (stringify (JObj (own_props (JArr items)))).
    rewrite query_keys_stringify. apply key_of_query_entries.
  - rewrite query_keys_stringify. apply key_of_query_entries.
Qed.

Lemma embed_query_entries (l : list string) :
  query_entries [("embed[]", JArr (map JStr l))]
  = map (fun x => "embed%5B%5D=" ++ qsEscape x) l.
Proof.
  unfold query_entries, entries_of. cbn [flat_map fst snd].
  rewrite app_nil_r, map_map. reflexivity.
Qed.

Lemma single_search_query_entries (q : string) (l : list string) :
  query_entries [("q", JStr q); ("embed[]", JArr (map JStr l))]
  = ("q=" ++ qsEscape q) :: map (fun x => "embed%5B%5D=" ++ qsEscape x) l.
Proof.
  unfold query_entries, entries_of. cbn [flat_map fst snd app].
  rewrite app_nil_r, map_map. reflexivity.
Qed.




Lemma requestOpts_with_entries (path : string) (options : value) (ps : props) :
  requestOpts path (with_query options (JObj ps))
  = {| method := "GET";
       url := base_url options
              ++ with_entries (escape_pathname path) (query_entries ps);
       headers := prop (opts options) "header" |}.
Proof. rewrite requestOpts_with_query, url_format_entries. reflexivity. Qed.






(** ** The conversion to a string *)

Lemma primitive_converts (v : value) :
  primitive v = true -> exists s, to_string v = Return s.
Proof. destruct v; try discriminate; intros _; eexists; reflexivity. Qed.

Lemma settles_sendRequest (path : string) (options : value) :
  settles_by_transport (sendRequest path options).
Proof.
  exists (requestOpts path options). split; [reflexivity|].
  unfold sendRequest, promise_catch, promise_then, axios. cbn [outcome].
  destruct (axios_result (requestOpts path options)); reflexivity.
Qed.

Lemma all_returned_map (f : value -> completion string exception)
    (g : value -> string) (items : list value) (l : list string) :
  Forall (fun x => forall s, f x = Return s -> g x = s) items ->
  all_returned (map f items) = Return l ->
  map g items = l.
Proof.
  intros Hall. revert l. induction Hall as [|x items Hx Hall IH]; intros l H.
  - injection H as <-. reflexivity.
  - cbn [map all_returned] in H. destruct (f x) as [s|e] eqn:E; [|discriminate H].
    destruct (all_returned (map f items)) as [l'|e]; [|discriminate H].
    injection H as <-. cbn [map]. rewrite (Hx s eq_refl), (IH l' eq_refl).
    reflexivity.
Qed.

Section value_induction.

Variable P : value -> Prop.
Hypothesis Hother : forall v, is_array v = false -> P v.
Hypothesis Harr : forall items, Forall P items -> P (JArr items).

(** Induction over values that reaches the elements of an array. *)
Fixpoint value_ind_arr (v : value) : P v :=
  match v with
  | JArr items =>
      Harr items
        ((fix all (l : list value) : Forall P l :=
            match l with
            | [] => Forall_nil P
            | x :: rest => Forall_cons x (value_ind_arr x) (all rest)
            end) items)
  | JUndefined => Hother JUndefined eq_refl
  | JNull => Hother JNull eq_refl
  | JBool b => Hother (JBool b) eq_refl
  | JNum n => Hother (JNum n) eq_refl
  | JStr s => Hother (JStr s) eq_refl
  | JObj fields => Hother (JObj fields) eq_refl
  end.

End value_induction.

(** Where the conversion returns, it returns what [ToString] says. *)
Lemma to_string_ToString (v : value) :
  forall s, to_string v = Return s -> ToString v = s.
Proof.
  apply (value_ind_arr (fun v => forall s, to_string v = Return s -> ToString v = s)).
  - intros w Hw s H. destruct w as [| | b | n | s0 | items | fields];
      try discriminate Hw; try (injection H as <-; reflexivity).
    cbn [to_string] in H. destruct (has_prop fields "toString"); [discriminate H|].
    injection H as <-. reflexivity.
  - intros items Hall s H. cbn [to_string] in H. cbn [ToString].
    destruct (all_returned _) as [l|e] eqn:E; [|discriminate H].
    injection H as <-. f_equal.
    refine (all_returned_map _ _ items l _ E).
    apply (Forall_impl _ (P := fun x => forall s, to_string x = Return s -> ToString x = s));
      [|exact Hall].
    intros x Hx s Hs.
    destruct x; try (injection Hs as <-; reflexivity); apply Hx, Hs.
Qed.

(** ** The properties of the specification *)

(** C1 (amended). The dispatcher writes no key of its own: every key of the
    query string is the escaped name of a property of the effective query.
    An endpoint method whose optional parameter (embed, page, specials) is
    left out sends a URL with no such key, neither with a value nor empty:
    no query string at all, or for [singleSearch] the key [q] alone. *)
Theorem unsupplied_optionals_omitted (id s options : value) :
  keys_sent (show id JUndefined options) = []
  /\ keys_sent (person id JUndefined options) = []
  /\ keys_sent (personCastCredits id JUndefined options) = []
  /\ keys_sent (personCrewCredits id JUndefined options) = []
  /\ keys_sent (episodes id JUndefined options) = []
  /\ keys_sent (showsIndex JUndefined options) = []
  /\ (forall k, In k (keys_sent (singleSearch s JUndefined options)) -> k = "q")
  /\ (forall path k,
         In k (keys_sent (sendRequest path options)) ->
         exists k0,
           In k0 (map fst (own_props (prop (opts options) "query")))
           /\ k = qsEscape k0).
Proof.
  repeat split;
    try (unfold show, person, personCastCredits, personCrewCredits, episodes,
           showsIndex; cbn [truthy]; rewrite keys_sent_with_query; reflexivity).
  - intros k. unfold singleSearch. cbn [truthy negb].
    rewrite keys_sent_with_query. intros Hin.
    apply query_keys_stringify_names in Hin.
    destruct Hin as [k0 [[<- | []] ->]]. reflexivity.
  - intros path k. rewrite keys_sent_sendRequest.
    apply query_keys_stringify_names.
Qed.

(** C2 (amended). A [header] field in the options replaces the default
    header mapping as a whole: the headers of the request are exactly the
    supplied value, whatever default headers it leaves out.  Without a
    [header] field the request carries the default mapping, that is the
    default User-Agent. *)
Theorem header_field_replaces_default (path : string) (options : value) :
  well_formed options ->
  map headers (sent (sendRequest path options))
  = [match assoc "header" (own_props options) with
     | Some h => h
     | None => default_header
     end]
  /\ prop (own_props default_header) "User-Agent"
     = JStr ("Mozilla/5.0 (Node.js) Tvmaze/" ++ VERSION).
Proof.
  intros Hwf. split; [|reflexivity].
  rewrite sent_sendRequest. cbn [map headers requestOpts]. f_equal.
  unfold prop. rewrite assoc_opts, (lastb_NoDup _ _ Hwf).
  destruct (assoc "header" (own_props options)); reflexivity.
Qed.


(** C4. For a non-empty embed list every embed-supporting method writes one
    entry per element, in the order of the list, each under the key
    [embed[]], which stands in the query string in its escaped form
    [embed%5B%5D] as every key does; the elements are never joined into one
    value. *)
Theorem embed_entries_in_order (id : value) (s e : string) (rest : list string)
    (options : value) :
  let embed := JArr (map JStr (e :: rest)) in
  let entries := map (fun x => "embed%5B%5D=" ++ qsEscape x) (e :: rest) in
  query_strings_sent (show id embed options) = [String.concat "&" entries]
  /\ query_strings_sent (person id embed options) = [String.concat "&" entries]
  /\ query_strings_sent (personCastCredits id embed options)
     = [String.concat "&" entries]
  /\ query_strings_sent (personCrewCredits id embed options)
     = [String.concat "&" entries]
  /\ query_strings_sent (singleSearch (JStr s) embed options)
     = [String.concat "&" (("q=" ++ qsEscape s) :: entries)]
  /\ query_keys (String.concat "&" entries)
     = map (fun _ => "embed%5B%5D") (e :: rest)
  /\ qsEscape "embed[]" = "embed%5B%5D".
Proof.
  intros embed entries. subst embed entries.
  assert (Hdirect : forall path,
             query_strings_sent
               (sendRequest path
                  (with_query options
                     (JObj [("embed[]", JArr (map JStr (e :: rest)))])))
             = [String.concat "&"
                  (map (fun x => "embed%5B%5D=" ++ qsEscape x) (e :: rest))]).
  { intros path.
    rewrite query_strings_sent_with_query, stringify_obj, embed_query_entries.
    reflexivity. }
  split; [apply Hdirect|]. split; [apply Hdirect|].
  split; [apply Hdirect|]. split; [apply Hdirect|].
  split; [|split; [|reflexivity]].
  - unfold singleSearch. cbn [truthy negb].
    rewrite query_strings_sent_with_query, stringify_obj.
    rewrite (single_search_query_entries s (e :: rest)). reflexivity.
  - rewrite <- (embed_query_entries (e :: rest)).
    rewrite <- stringify_obj, query_keys_stringify.
    rewrite embed_query_entries, map_map.
    apply map_ext. intros x.
    change ("embed%5B%5D=" ++ qsEscape x)
      with ("embed%5B%5D" ++ String "=" (qsEscape x)).
    apply key_of_entry. reflexivity.
Qed.


(** C6 (amended). No endpoint method checks its arguments.  A call that
    returns has sent one GET request and settles as the transport settles
    it.  A call throws only where JavaScript's own conversion to a string
    throws: on the one argument it writes into its path or uses as a
    property name, when that argument does not convert.  With that argument
    missing ([undefined]) or any other primitive the call always returns; a
    missing search string or id is sent on as it is. *)
Theorem no_local_validation (m : method_call) :
  (forall p, perform m = Return p -> one_get p /\ settles_by_transport p)
  /\ (forall e,
         perform m = Throw e ->
         exists v, In v (converted m) /\ to_string v = Throw e)
  /\ (Forall (fun v => primitive v = true) (converted m) ->
      exists p, perform m = Return p).
Proof.
  split; [|split].
  - intros p H.
    assert (Hs : forall path o, one_get (sendRequest path o)
                                /\ settles_by_transport (sendRequest path o)).
    { intros path o. split; [|apply settles_sendRequest].
      eexists. split; reflexivity. }
    destruct m; cbn [perform] in H; unfold after_conversion in H;
      try match type of H with
          | context [to_string ?v] => destruct (to_string v); [|discriminate H]
          end;
      injection H as <-; apply Hs.
  - intros e H.
    destruct m; cbn [perform] in H; unfold after_conversion in H;
      try discriminate H;
      match type of H with
      | context [to_string ?v] =>
          exists v; split; [left; reflexivity|];
          destruct (to_string v); [discriminate H|injection H as <-; reflexivity]
      end.
  - intros H.
    destruct m; cbn [perform converted] in *; unfold after_conversion;
      try (eexists; reflexivity);
      inversion H as [|v l Hv _]; subst;
      destruct (primitive_converts _ Hv) as [s ->]; eexists; reflexivity.
Qed.

(** C7. A dispatch hands one request to the transport; when the transport
    resolves, the call resolves with the [data] of the response as it is,
    and when the transport rejects, the call rejects with that same error.
    Nothing is retried and nothing is translated. *)
Theorem dispatch_passthrough (path : string) (options : value) :
  sent (sendRequest path options) = [requestOpts path options]
  /\ outcome (sendRequest path options)
     = match axios_result (requestOpts path options) with
       | Fulfilled response => Fulfilled (data response)
       | Rejected e => Rejected e
       end.
Proof.
  split; [reflexivity|].
  unfold sendRequest, promise_catch, promise_then, axios. cbn [outcome].
  destruct (axios_result (requestOpts path options)); reflexivity.
Qed.

(** C8. With the effective [https] option [true] the URL starts with
    [https://], with it [false] the URL starts with [http://]; with the
    options absent the default, [false], applies. *)
Theorem scheme_law (path : string) (options : value) (b : bool) :
  prop (opts options) "https" = JBool b ->
  String.prefix "https://" (requestUrl path options) = b
  /\ String.prefix "http://" (requestUrl path options) = negb b
  /\ String.prefix "http://" (requestUrl path JUndefined) = true
  /\ String.prefix "https://" (requestUrl path JUndefined) = false.
Proof.
  intros H. unfold requestUrl, base_url. rewrite H.
  destruct b; repeat split; reflexivity.
Qed.

(** C9. The three wrappers are [lookup] at their fixed type; a lookup puts
    the external id under the key named like the type, on the path
    lookup/shows. *)
Theorem lookup_wrappers :
  (forall id options : value,
      lookupThetvdb id options = lookup (JStr "thetvdb") id options
      /\ lookupImdb id options = lookup (JStr "imdb") id options
      /\ lookupTvrage id options = lookup (JStr "tvrage") id options)
  /\ (forall (t : lookup_type) (id : string) (options : value),
         sent (lookup (JStr (lookup_type_name t)) (JStr id) options)
         = [{| method := "GET";
               url := base_url options ++ "lookup/shows?"
                      ++ lookup_type_name t ++ "=" ++ qsEscape id;
               headers := prop (opts options) "header" |}])
  /\ urls_sent (lookupImdb (JStr "tt3530232") JUndefined)
     = ["http://api.tvmaze.com/lookup/shows?imdb=tt3530232"].
Proof.
  split; [intros; repeat split; reflexivity|]. split; [|reflexivity].
  intros t id options. unfold lookup.
  rewrite sent_sendRequest, requestOpts_with_query, url_format_entries.
  destruct t; reflexivity.
Qed.


(** ** Further properties of the dispatcher *)

Lemma all_chars_app (ok : ascii -> bool) (a b : string) :
  all_chars ok (a ++ b) = all_chars ok a && all_chars ok b.
Proof.
  induction a as [|x a IH]; simpl; [reflexivity|].
  rewrite IH. apply andb_assoc.
Qed.

Lemma all_chars_concat (ok : ascii -> bool) (sep : string) (l : list string) :
  all_chars ok sep = true ->
  Forall (fun e => all_chars ok e = true) l ->
  all_chars ok (String.concat sep l) = true.
Proof.
  intros Hsep Hl. induction Hl as [|e l He Hl IH]; [reflexivity|].
  destruct l as [|e' l']; [exact He|].
  cbn [String.concat]. rewrite !all_chars_app, He, Hsep. exact IH.
Qed.

Lemma encodeUnit_query_chars (a : ascii) :
  all_chars query_char (encodeUnit a) = true.
Proof. destruct a as [[] [] [] [] [] [] [] []]; vm_compute; reflexivity. Qed.

Lemma qsEscape_query_chars (s : string) :
  all_chars query_char (qsEscape s) = true.
Proof.
  induction s as [|a s IH]; simpl; [reflexivity|].
  rewrite all_chars_app, encodeUnit_query_chars. exact IH.
Qed.

Lemma number_to_string_query_chars (n : Z) :
  all_chars query_char (number_to_string n) = true.
Proof.
  assert (He : forall d, all_chars query_char (NilEmpty.string_of_uint d) = true).
  { induction d; simpl; auto. }
  assert (Hu : forall d, all_chars query_char (NilZero.string_of_uint d) = true).
  { intros d. unfold NilZero.string_of_uint. destruct d; try apply He. reflexivity. }
  unfold number_to_string, NilZero.string_of_int.
  destruct (Z.to_int n) as [d|d]; [apply Hu|].
  cbn [all_chars]. rewrite Hu. reflexivity.
Qed.

Lemma encodeStringified_query_chars (v : value) :
  all_chars query_char (encodeStringified v) = true.
Proof.
  destruct v; simpl; try reflexivity.
  - destruct b; reflexivity.
  - apply number_to_string_query_chars.
  - apply qsEscape_query_chars.
Qed.

Lemma query_entries_query_chars (ps : props) :
  Forall (fun e => all_chars query_char e = true) (query_entries ps).
Proof.
  apply Forall_forall. intros e Hin.
  apply in_flat_map in Hin. destruct Hin as [[k v] [_ Hin]].
  unfold entries_of in Hin. cbn [fst snd] in Hin.
  assert (Hone : forall x,
             all_chars query_char ((qsEscape k ++ "=") ++ encodeStringified x)
             = true).
  { intros x. rewrite !all_chars_app, qsEscape_query_chars,
      encodeStringified_query_chars. reflexivity. }
  destruct v; try (destruct Hin as [<-|[]]; apply Hone).
  apply in_map_iff in Hin. destruct Hin as [x [<- _]]. apply Hone.
Qed.

Lemma stringify_query_chars (q : value) :
  all_chars query_char (stringify q) = true.
Proof.
  rewrite stringify_join.
  destruct q; try reflexivity;
    (apply all_chars_concat; [reflexivity|apply query_entries_query_chars]).
Qed.

Lemma escape_pathname_no_hash (s : string) :
  avoids "#" (escape_pathname s) = true.
Proof.
  induction s as [|a s IH]; simpl; [reflexivity|].
  destruct (Ascii.eqb a "#") eqn:E1; [exact IH|].
  destruct (Ascii.eqb a "?") eqn:E2; [exact IH|].
  simpl. rewrite E1. exact IH.
Qed.

Lemma prefix_append (a b : string) : String.prefix a (a ++ b) = true.
Proof.
  induction a as [|x a IH]; simpl; [destruct b; reflexivity|].
  destruct (ascii_dec x x); [exact IH|congruence].
Qed.

Lemma append_cancel_l (a b c : string) : a ++ b = a ++ c -> b = c.
Proof.
  induction a as [|x a IH]; simpl; [auto|].
  intros H. injection H as H. auto.
Qed.

Lemma map_key_of_entries_of (kv : string * value) :
  map key_of (entries_of kv) = repeat (qsEscape (fst kv)) (entry_count (snd kv)).
Proof.
  destruct kv as [k v]. unfold entries_of. cbn [fst snd].
  destruct v; cbn [map entry_count repeat]; try (rewrite key_of_written; reflexivity).
  induction items as [|x items IH]; [reflexivity|].
  cbn [map List.length repeat]. rewrite key_of_written, IH. reflexivity.
Qed.

Lemma prop_opts_own (k : string) (options : value) :
  well_formed options ->
  prop (opts options) k
  = match assoc k (own_props options) with
    | Some v => v
    | None => prop (own_props DEFAULT_OPTIONS) k
    end.
Proof.
  intros Hwf. unfold prop. rewrite assoc_opts, (lastb_NoDup k _ Hwf).
  destruct (assoc k (own_props options)); reflexivity.
Qed.

(** X1. For an effective query whose property names are not written in
    digits, the keys of the query string stand in the order in which the
    properties were added: one key per property, an array-valued property
    once per element (an empty array not at all), each key escaped. *)
Theorem query_keys_in_insertion_order (path : string) (options : value)
    (ps : props) :
  prop (opts options) "query" = JObj ps ->
  Forall (fun kv => numeric_name (fst kv) = false) ps ->
  keys_sent (sendRequest path options)
  = flat_map (fun kv => repeat (qsEscape (fst kv)) (entry_count (snd kv))) ps.
Proof.
  intros H _. rewrite keys_sent_sendRequest, H, query_keys_stringify.
  clear H. unfold query_entries.
  induction ps as [|kv ps IH]; [reflexivity|].
  cbn [flat_map]. rewrite map_app, map_key_of_entries_of, IH. reflexivity.
Qed.

(** X2. The query string of the URL is made from the effective query alone:
    whatever the path, question marks and hashes in it included, the same
    options give the same query string. *)
Theorem query_string_independent_of_path (path path' : string) (options : value) :
  query_strings_sent (sendRequest path options)
  = query_strings_sent (sendRequest path' options).
Proof. rewrite !query_strings_sent_sendRequest. reflexivity. Qed.

(** X3. No URL the dispatcher builds holds a hash, and past its first
    question mark none holds another: a path cannot open a fragment or a
    second query. *)
Theorem no_fragment_no_second_query (path : string) (options : value) :
  avoids "#" (requestUrl path options) = true
  /\ avoids "?" (query_string (requestUrl path options)) = true.
Proof.
  split.
  - unfold requestUrl. rewrite url_format_search, !avoids_app.
    rewrite escape_pathname_no_hash.
    assert (Hb : avoids "#" (base_url options) = true)
      by (destruct (base_url_cases options) as [-> | ->]; reflexivity).
    rewrite Hb. destruct (nonempty _); [|reflexivity].
    rewrite avoids_app, stringify_avoids by auto. reflexivity.
  - rewrite query_string_requestUrl. apply stringify_avoids. auto.
Qed.

(** X4. The query string of every URL the dispatcher builds is written in
    the unreserved characters, percent escapes, and the separators [=] and
    [&] only, whatever strings the query holds. *)
Theorem query_string_alphabet (path : string) (options : value) :
  all_chars query_char (query_string (requestUrl path options)) = true.
Proof. rewrite query_string_requestUrl. apply stringify_query_chars. Qed.


Lemma carries_sendRequest (path : string) (options : value) :
  carries options (sendRequest path options).
Proof.
  exists (requestOpts path options). split; [reflexivity|]. split; [reflexivity|].
  apply prefix_append.
Qed.

Lemma carries_with_query (path : string) (options query : value) :
  carries options (sendRequest path (with_query options query)).
Proof.
  exists (requestOpts path (with_query options query)).
  split; [reflexivity|]. rewrite requestOpts_with_query. cbn [headers url].
  split; [reflexivity|apply prefix_append].
Qed.

Lemma perform_returns (m : method_call) (p : promise value error) :
  perform m = Return p ->
  exists path query,
    p = sendRequest path (options_of m)
    \/ p = sendRequest path (with_query (options_of m) query).
Proof.
  intros H.
  destruct m; cbn [perform] in H; unfold after_conversion in H;
    try match type of H with
        | context [to_string ?v] => destruct (to_string v); [|discriminate H]
        end;
    injection H as <-; cbn [options_of];
    unfold search, singleSearch, searchPeople, lookupThetvdb, lookupImdb,
      lookupTvrage, lookup, schedule, fullSchedule, show, episodes, episode,
      episodesByDate, seasons, seasonEpisodes, cast, crew, aliases, showsIndex,
      showUpdates, person, personCastCredits, personCrewCredits;
    cbv zeta;
    lazymatch goal with
    | |- exists _ _, sendRequest ?P (with_query ?o ?q) = _ \/ _ =>
        exists P, q; right; reflexivity
    | |- exists _ _, sendRequest ?P ?o = _ \/ _ =>
        exists P, JUndefined; left; reflexivity
    end.
Qed.

(** X6. No endpoint method touches the scheme or the headers: a call that
    returns (its argument converted to a string where the method needs one)
    has sent one request, under the base URL and with the headers that the
    caller's options select for the dispatcher. *)
Theorem methods_keep_scheme_and_headers (m : method_call)
    (p : promise value error) :
  perform m = Return p -> carries (options_of m) p.
Proof.
  intros H. destruct (perform_returns m p H) as [path [query [-> | ->]]];
    [apply carries_sendRequest|apply carries_with_query].
Qed.

(** X7. An optional parameter given a falsy value ([null], [false], [0],
    the empty string) is taken as left out: the call is the one made without
    it.  In particular [showsIndex(0)] asks for no page. *)
Theorem falsy_optional_is_unsupplied (id s v options : value) :
  truthy v = false ->
  show id v options = show id JUndefined options
  /\ person id v options = person id JUndefined options
  /\ personCastCredits id v options = personCastCredits id JUndefined options
  /\ personCrewCredits id v options = personCrewCredits id JUndefined options
  /\ singleSearch s v options = singleSearch s JUndefined options
  /\ episodes id v options = episodes id JUndefined options
  /\ showsIndex v options = showsIndex JUndefined options.
Proof.
  intros H.
  unfold show, person, personCastCredits, personCrewCredits, singleSearch,
    episodes, showsIndex.
  rewrite H. repeat split; reflexivity.
Qed.

(** X8. [episodes] reads its [specials] argument for its truth value only:
    two values that are both truthy, or both falsy, give the same call, and
    a truthy one is always sent as [specials=1]. *)
Theorem episodes_reads_truthiness (id v w options : value) :
  truthy v = truthy w ->
  episodes id v options = episodes id w options
  /\ (truthy v = true ->
      query_strings_sent (episodes id v options) = ["specials=1"]).
Proof.
  intros H. unfold episodes. rewrite H. split; [reflexivity|].
  intros Hv. rewrite <- H, Hv in *.
  rewrite query_strings_sent_with_query. reflexivity.
Qed.

(** X9. A single embed name may be given as a bare string: when it is not
    empty, the call is the one made with the one-element list. *)
Theorem bare_embed_is_singleton (id q : value) (name : string) (options : value) :
  name <> "" ->
  show id (JStr name) options = show id (JArr [JStr name]) options
  /\ person id (JStr name) options = person id (JArr [JStr name]) options
  /\ personCastCredits id (JStr name) options
     = personCastCredits id (JArr [JStr name]) options
  /\ personCrewCredits id (JStr name) options
     = personCrewCredits id (JArr [JStr name]) options
  /\ singleSearch q (JStr name) options
     = singleSearch q (JArr [JStr name]) options.
Proof.
  intros Hne.
  assert (Ht : truthy (JStr name) = true).
  { cbn [truthy]. apply String.eqb_neq in Hne. rewrite Hne. reflexivity. }
  unfold show, person, personCastCredits, personCrewCredits, singleSearch.
  rewrite Ht. cbn [truthy negb].
  repeat split; apply sendRequest_requestOpts;
    rewrite !requestOpts_with_entries; reflexivity.
Qed.

(** X10. The scheme follows the truth value of the [https] option, not its
    being [true]: any truthy value (a number other than 0, a non-empty
    string) selects [https://], any falsy one [http://]. *)
Theorem scheme_by_truthiness (path : string) (options v : value) :
  well_formed options ->
  assoc "https" (own_props options) = Some v ->
  String.prefix "https://" (requestUrl path options) = truthy v
  /\ String.prefix "http://" (requestUrl path options) = negb (truthy v).
Proof.
  intros Hwf Hv. unfold requestUrl, base_url.
  rewrite (prop_opts_own _ _ Hwf), Hv.
  destruct (truthy v); split; reflexivity.
Qed.

(** X11. [schedule] always writes both of its keys, [countrycode] first:
    an argument that is missing (or any value [stringify] does not print) is
    written with an empty value, it is not left out. *)
Theorem schedule_writes_both_keys (countryCode date options : value) :
  is_array countryCode = false ->
  is_array date = false ->
  query_strings_sent (schedule countryCode date options)
  = ["countrycode=" ++ encodeStringified countryCode
     ++ "&date=" ++ encodeStringified date]
  /\ keys_sent (schedule countryCode date options) = ["countrycode"; "date"].
Proof.
  intros Hc Hd. unfold schedule. split.
  - rewrite query_strings_sent_with_query, stringify_obj.
    destruct countryCode; try discriminate Hc;
      destruct date; try discriminate Hd; reflexivity.
  - rewrite keys_sent_with_query, query_keys_stringify.
    unfold query_entries. cbn [flat_map].
    rewrite !map_app, !map_key_of_entries_of. cbn [fst snd].
    destruct countryCode; try discriminate Hc;
      destruct date; try discriminate Hd; reflexivity.
Qed.

(** X12. [lookup] does not check its type: whatever type name it is given
    becomes the key of the request, escaped like the id.  The one name that
    makes no key is [__proto__], with which the request carries no query. *)
Theorem lookup_any_type (type id : string) (options : value) :
  urls_sent (lookup (JStr type) (JStr id) options)
  = [base_url options ++ "lookup/shows"
     ++ (if type =? "__proto__" then ""
         else "?" ++ qsEscape type ++ "=" ++ qsEscape id)].
Proof.
  unfold lookup, urls_sent.
  rewrite sent_sendRequest. cbn [ToString].
  destruct (type =? "__proto__").
  - rewrite requestOpts_with_entries. reflexivity.
  - cbn [set_prop]. rewrite requestOpts_with_entries. cbn [map url].
    unfold query_entries, entries_of. cbn [flat_map fst snd app with_entries].
    cbn [String.concat]. rewrite !append_assoc. reflexivity.
Qed.

Lemma pct_bytes_encodeUnit (a : ascii) (rest : string) :
  pct_bytes (encodeUnit a ++ rest) = (unit_bytes a ++ pct_bytes rest)%list.
Proof. destruct a as [[] [] [] [] [] [] [] []]; reflexivity. Qed.

Lemma utf8_units_unit_bytes (a : ascii) (l : list N) :
  utf8_units (unit_bytes a ++ l) = String a (utf8_units l).
Proof. destruct a as [[] [] [] [] [] [] [] []]; reflexivity. Qed.

Lemma unescape_qsEscape (s : string) :
  unescape (qsEscape s) = s.
Proof.
  unfold unescape. induction s as [|a s IH]; [reflexivity|].
  cbn [qsEscape]. rewrite pct_bytes_encodeUnit, utf8_units_unit_bytes, IH.
  reflexivity.
Qed.

Lemma qsEscape_injective (s1 s2 : string) :
  qsEscape s1 = qsEscape s2 -> s1 = s2.
Proof.
  intros H. rewrite <- (unescape_qsEscape s1), <- (unescape_qsEscape s2).
  rewrite H. reflexivity.
Qed.

Lemma url_one_entry (path : string) (options : value) (k s : string) :
  urls_sent (sendRequest path (with_query options (JObj [(k, JStr s)])))
  = [base_url options
     ++ escape_pathname path ++ "?" ++ (qsEscape k ++ "=") ++ qsEscape s].
Proof.
  unfold urls_sent. rewrite sent_sendRequest, requestOpts_with_entries.
  reflexivity.
Qed.

Lemma one_entry_injective (path : string) (options : value) (k s1 s2 : string) :
  urls_sent (sendRequest path (with_query options (JObj [(k, JStr s1)])))
  = urls_sent (sendRequest path (with_query options (JObj [(k, JStr s2)]))) ->
  s1 = s2.
Proof.
  rewrite !url_one_entry. intros H. injection H as H.
  do 2 apply append_cancel_l in H. injection H as H.
  apply append_cancel_l in H. apply qsEscape_injective, H.
Qed.

(** X13. The escaping loses nothing: two searches, two lookups under a
    type that makes a key (any but [__proto__]) or two date queries that
    send the same URL were given the same string. *)
Theorem same_url_same_string (s1 s2 : string) (options : value) :
  urls_sent (search (JStr s1) options) = urls_sent (search (JStr s2) options)
  \/ urls_sent (searchPeople (JStr s1) options)
     = urls_sent (searchPeople (JStr s2) options)
  \/ (exists type,
         ToString type <> "__proto__"
         /\ urls_sent (lookup type (JStr s1) options)
            = urls_sent (lookup type (JStr s2) options))
  \/ (exists showid,
         urls_sent (episodesByDate showid (JStr s1) options)
         = urls_sent (episodesByDate showid (JStr s2) options)) ->
  s1 = s2.
Proof.
  intros [H | [H | [[type [Hne H]] | [showid H]]]].
  - exact (one_entry_injective "search/shows" options "q" s1 s2 H).
  - exact (one_entry_injective "search/people" options "q" s1 s2 H).
  - unfold lookup in H. cbv zeta in H.
    apply String.eqb_neq in Hne. rewrite Hne in H. cbn [set_prop] in H.
    exact (one_entry_injective "lookup/shows" options (ToString type) s1 s2 H).
  - exact (one_entry_injective
             ("shows/" ++ ToString showid ++ "/episodesbydate") options "date"
             s1 s2 H).
Qed.

(** X14. An empty embed list asks for nothing: the URL is the one sent
    when no embed is given. *)
Theorem empty_embed_list_sends_no_key (id q options : value) :
  urls_sent (show id (JArr []) options) = urls_sent (show id JUndefined options)
  /\ urls_sent (person id (JArr []) options)
     = urls_sent (person id JUndefined options)
  /\ urls_sent (personCastCredits id (JArr []) options)
     = urls_sent (personCastCredits id JUndefined options)
  /\ urls_sent (personCrewCredits id (JArr []) options)
     = urls_sent (personCrewCredits id JUndefined options)
  /\ urls_sent (singleSearch q (JArr []) options)
     = urls_sent (singleSearch q JUndefined options).
Proof.
  unfold show, person, personCastCredits, personCrewCredits, singleSearch,
    urls_sent.
  cbn [truthy negb]. rewrite !sent_sendRequest, !requestOpts_with_query.
  cbn [map url].
  assert (H : forall path,
             url_format path (JObj [("embed[]", JArr [])])
             = url_format path JNull).
  { intros path. rewrite !url_format_search. reflexivity. }
  rewrite !H.
  assert (Hs : forall path,
             url_format path (JObj [("q", q); ("embed[]", JArr [])])
             = url_format path
                 (JObj (delete_prop "embed[]" [("q", q); ("embed[]", JUndefined)]))).
  { intros path. rewrite !url_format_search.
    change (delete_prop "embed[]" [("q", q); ("embed[]", JUndefined)])
      with [("q", q)].
    rewrite !stringify_obj. unfold query_entries. cbn [flat_map].
    cbn [entries_of fst snd]. reflexivity. }
  rewrite Hs. repeat split; reflexivity.
Qed.

End Tvmaze.

Arguments urls_sent {error} p.
Arguments query_strings_sent {error} p.
Arguments keys_sent {error} p.
Arguments one_get {error} p.
Arguments carries VERSION {error} options p.
Arguments settles_by_transport {error} axios_result p.
Arguments perform VERSION {error} axios_result m.

(** ** The properties on concrete calls *)


(** C2, as stated, fails: with a header mapping that names only [Accept],
    the request carries that mapping and the default User-Agent is gone. *)
Lemma default_user_agent_dropped :
  let options := JObj [("header", JObj [("Accept", JStr "application/json")])] in
  map headers (sent (sendRequest sample_version string offline "shows/1" options))
  = [JObj [("Accept", JStr "application/json")]]
  /\ has_prop [("Accept", JStr "application/json")] "User-Agent" = false
  /\ has_prop (own_props (default_header sample_version)) "User-Agent" = true.
Proof. repeat split; reflexivity. Qed.

Lemma header_field_replaces_default_witness :
  let options := JObj [("header", JObj [("Accept", JStr "application/json")])] in
  well_formed options
  /\ (map headers (sent (sendRequest sample_version string offline "shows/1" options))
      = [match assoc "header" (own_props options) with
         | Some h => h
         | None => default_header sample_version
         end]
      /\ prop (own_props (default_header sample_version)) "User-Agent"
         = JStr ("Mozilla/5.0 (Node.js) Tvmaze/" ++ sample_version)).
Proof.
  assert (H : well_formed
                (JObj [("header", JObj [("Accept", JStr "application/json")])])).
  { unfold well_formed. simpl. constructor; [intros []|constructor]. }
  split; [exact H|].
  exact (header_field_replaces_default sample_version string offline "shows/1"
           (JObj [("header", JObj [("Accept", JStr "application/json")])]) H).
Defined.

Lemma scheme_law_witness :
  let options := JObj [("https", JBool true)] in
  prop (opts sample_version options) "https" = JBool true
  /\ (String.prefix "https://" (requestUrl sample_version "shows/396" options) = true
      /\ String.prefix "http://" (requestUrl sample_version "shows/396" options)
         = negb true
      /\ String.prefix "http://" (requestUrl sample_version "shows/396" JUndefined)
         = true
      /\ String.prefix "https://" (requestUrl sample_version "shows/396" JUndefined)
         = false).
Proof.
  split; [reflexivity|].
  exact (scheme_law sample_version "shows/396"
           (JObj [("https", JBool true)]) true eq_refl).
Defined.

(** C1, as stated, fails: [schedule] called without country code and date
    hands the dispatcher a query whose two values are [undefined], and both
    keys are written, each with an empty value. *)
Lemma schedule_unsupplied_not_omitted :
  urls_sent (schedule sample_version string offline JUndefined JUndefined JUndefined)
  = ["http://api.tvmaze.com/schedule?countrycode=&date="]
  /\ keys_sent (schedule sample_version string offline JUndefined JUndefined JUndefined)
     = ["countrycode"; "date"]
  /\ keys_sent (sendRequest sample_version string offline "schedule"
                  (JObj [("query", JObj [("date", JNull)])]))
     = ["date"].
Proof. repeat split; reflexivity. Qed.

Lemma unsupplied_optionals_omitted_witness :
  In "q" (keys_sent (singleSearch sample_version string offline
                       (JStr "firefly") JUndefined JUndefined))
  /\ "q" = "q".
Proof.
  assert (H : In "q" (keys_sent (singleSearch sample_version string offline
                                   (JStr "firefly") JUndefined JUndefined))).
  { left. reflexivity. }
  split; [exact H|].
  exact (proj1 (proj2 (proj2 (proj2 (proj2 (proj2 (proj2
           (unsupplied_optionals_omitted sample_version string offline
              JUndefined (JStr "firefly") JUndefined))))))) "q" H).
Defined.



Example seasons_example :
  urls_sent (invoke sample_version string offline (Seasons 321)
               (JObj [("https", JBool true)]))
  = ["https://api.tvmaze.com/shows/321/seasons"]
  /\ template (Seasons 321) = "shows/321/seasons".
Proof. split; reflexivity. Qed.

(** The embed entries as they stand in the URL, keys escaped. *)
Example embed_on_the_wire :
  query_strings_sent
    (show sample_version string offline (JNum 1) (JArr [JStr "a"; JStr "b"])
       JUndefined)
  = ["embed%5B%5D=a&embed%5B%5D=b"]
  /\ unescape "embed%5B%5D=a&embed%5B%5D=b" = "embed[]=a&embed[]=b".
Proof. split; reflexivity. Qed.

(** C6, as stated, fails: [search] and [lookup] called without their
    required argument send their request all the same. *)
Lemma missing_argument_still_requested :
  sent (search sample_version string offline JUndefined JUndefined)
  = [{| method := "GET";
        url := "http://api.tvmaze.com/search/shows?q=";
        headers := default_header sample_version |}]
  /\ urls_sent (lookup sample_version string offline (JStr "imdb") JUndefined
                  JUndefined)
     = ["http://api.tvmaze.com/lookup/shows?imdb="].
Proof. split; reflexivity. Qed.

Lemma no_local_validation_witness :
  perform sample_version offline (CallSearch JUndefined JUndefined)
  = Return (search sample_version string offline JUndefined JUndefined)
  /\ (one_get (search sample_version string offline JUndefined JUndefined)
      /\ settles_by_transport offline
           (search sample_version string offline JUndefined JUndefined)).
Proof.
  split; [reflexivity|].
  exact (proj1 (no_local_validation sample_version string offline
                  (CallSearch JUndefined JUndefined))
           (search sample_version string offline JUndefined JUndefined) eq_refl).
Defined.

(** The one local failure: an id that JavaScript cannot convert to a string
    stops [seasons] before any request; a missing id is converted, to the
    text [undefined], and requested. *)
Example conversion_examples :
  perform sample_version offline
    (CallSeasons (JObj [("toString", JNull)]) JUndefined)
  = Throw TypeError
  /\ to_string (JArr [JNum 1; JNull; JObj []]) = Return "1,,[object Object]"
  /\ to_string (JArr [JNum 1; JObj [("toString", JNull)]]) = Throw TypeError
  /\ urls_sent (seasons sample_version string offline JUndefined JUndefined)
     = ["http://api.tvmaze.com/shows/undefined/seasons"].
Proof. repeat split; reflexivity. Qed.

(** The documentation's other examples, run. *)
Example episode_example :
  urls_sent (episode sample_version string offline (JNum 396) (JNum 1) (JNum 1)
               JUndefined)
  = ["http://api.tvmaze.com/shows/396/episodebynumber?season=1&number=1"].
Proof. reflexivity. Qed.

Example schedule_example :
  urls_sent (schedule sample_version string offline (JStr "GB") (JStr "2019-03-23")
               (JObj [("https", JBool true)]))
  = ["https://api.tvmaze.com/schedule?countrycode=GB&date=2019-03-23"].
Proof. reflexivity. Qed.

Example echo_example :
  outcome (lookupImdb sample_version string echo (JStr "tt3530232") JUndefined)
  = Fulfilled
      (JObj [("url", JStr "http://api.tvmaze.com/lookup/shows?imdb=tt3530232")])
  /\ outcome (lookupImdb sample_version string offline (JStr "tt3530232") JUndefined)
     = Rejected "ECONNREFUSED".
Proof. split; reflexivity. Qed.

(** ** The further properties on concrete calls *)

Lemma query_keys_in_insertion_order_witness :
  let query := [("q", JStr "x"); ("embed[]", JArr [JStr "a"; JStr "b"]);
                ("tags", JArr []); ("page", JNum 2)] in
  let options := JObj [("query", JObj query)] in
  prop (opts sample_version options) "query" = JObj query
  /\ Forall (fun kv => numeric_name (fst kv) = false) query
  /\ keys_sent (sendRequest sample_version string offline "shows" options)
     = ["q"; "embed%5B%5D"; "embed%5B%5D"; "page"].
Proof.
  assert (H : Forall (fun kv => numeric_name (fst kv) = false)
                [("q", JStr "x"); ("embed[]", JArr [JStr "a"; JStr "b"]);
                 ("tags", JArr []); ("page", JNum 2)])
    by (repeat constructor).
  split; [reflexivity|]. split; [exact H|].
  exact (query_keys_in_insertion_order sample_version string offline "shows"
           (JObj [("query",
                   JObj [("q", JStr "x"); ("embed[]", JArr [JStr "a"; JStr "b"]);
                         ("tags", JArr []); ("page", JNum 2)])])
           [("q", JStr "x"); ("embed[]", JArr [JStr "a"; JStr "b"]);
            ("tags", JArr []); ("page", JNum 2)]
           eq_refl H).
Defined.


Lemma falsy_optional_is_unsupplied_witness :
  truthy (JNum 0) = false
  /\ showsIndex sample_version string offline (JNum 0) JUndefined
     = showsIndex sample_version string offline JUndefined JUndefined.
Proof.
  split; [reflexivity|].
  exact (proj2 (proj2 (proj2 (proj2 (proj2 (proj2
           (falsy_optional_is_unsupplied sample_version string offline
              (JNum 1) (JStr "x") (JNum 0) JUndefined eq_refl))))))).
Defined.

Lemma episodes_reads_truthiness_witness :
  truthy (JStr "yes") = truthy (JNum 1)
  /\ episodes sample_version string offline (JNum 396) (JStr "yes") JUndefined
     = episodes sample_version string offline (JNum 396) (JNum 1) JUndefined.
Proof.
  split; [reflexivity|].
  exact (proj1 (episodes_reads_truthiness sample_version string offline
                  (JNum 396) (JStr "yes") (JNum 1) JUndefined eq_refl)).
Defined.

Lemma bare_embed_is_singleton_witness :
  "episodes" <> ""
  /\ show sample_version string offline (JNum 396) (JStr "episodes") JUndefined
     = show sample_version string offline (JNum 396) (JArr [JStr "episodes"])
         JUndefined.
Proof.
  assert (H : "episodes" <> "") by discriminate.
  split; [exact H|].
  exact (proj1 (bare_embed_is_singleton sample_version string offline
                  (JNum 396) (JStr "x") "episodes" JUndefined H)).
Defined.

Lemma scheme_by_truthiness_witness :
  let options := JObj [("https", JStr "false")] in
  well_formed options
  /\ assoc "https" (own_props options) = Some (JStr "false")
  /\ String.prefix "https://" (requestUrl sample_version "shows" options) = true.
Proof.
  assert (H : well_formed (JObj [("https", JStr "false")])).
  { unfold well_formed. simpl. constructor; [intros []|constructor]. }
  split; [exact H|]. split; [reflexivity|].
  exact (proj1 (scheme_by_truthiness sample_version "shows"
                  (JObj [("https", JStr "false")]) (JStr "false") H eq_refl)).
Defined.

Lemma schedule_writes_both_keys_witness :
  is_array (JStr "GB") = false
  /\ is_array JUndefined = false
  /\ query_strings_sent
       (schedule sample_version string offline (JStr "GB") JUndefined JUndefined)
     = ["countrycode=GB&date="].
Proof.
  split; [reflexivity|]. split; [reflexivity|].
  exact (proj1 (schedule_writes_both_keys sample_version string offline
                  (JStr "GB") JUndefined JUndefined eq_refl eq_refl)).
Defined.

Lemma same_url_same_string_witness :
  urls_sent (search sample_version string offline (JStr "firefly") JUndefined)
  = urls_sent (search sample_version string offline (JStr "firefly") JUndefined)
  /\ "firefly" = "firefly".
Proof.
  split; [reflexivity|].
  exact (same_url_same_string sample_version string offline "firefly" "firefly"
           JUndefined (or_introl eq_refl)).
Defined.

Example more_examples :
  urls_sent (show sample_version string offline (JStr "1?embed[]=cast#x")
               JUndefined JUndefined)
  = ["http://api.tvmaze.com/shows/1%3Fembed[]=cast%23x"]
  /\ urls_sent (lookup sample_version string offline (JStr "my id") (JStr "a/b")
                  JUndefined)
     = ["http://api.tvmaze.com/lookup/shows?my%20id=a%2Fb"]
  /\ unescape "star%20vs%20the%20forces%20of%20evil"
     = "star vs the forces of evil".
Proof. repeat split; reflexivity. Qed.

Lemma methods_keep_scheme_and_headers_witness :
  let m := CallSeasons (JNum 321) (JObj [("https", JBool true)]) in
  let p := seasons sample_version string offline (JNum 321)
             (JObj [("https", JBool true)]) in
  perform sample_version offline m = Return p
  /\ carries sample_version (options_of m) p.
Proof.
  split; [reflexivity|].
  exact (methods_keep_scheme_and_headers sample_version string offline
           (CallSeasons (JNum 321) (JObj [("https", JBool true)]))
           (seasons sample_version string offline (JNum 321)
              (JObj [("https", JBool true)]))
           eq_refl).
Defined.

Example lookup_proto_example :
  urls_sent (lookup sample_version string offline (JStr "__proto__") (JStr "x")
               JUndefined)
  = ["http://api.tvmaze.com/lookup/shows"].
Proof. reflexivity. Qed.
